(** * aiotelegrambot.bot: the polling bot, its lifecycle and its registration
      decorators

    A shallow embedding of [src/aiotelegrambot/bot.py].  The two classes
    [BotBase] and [Bot] become one record [Bot] and state-passing functions
    over it.  Coroutines are run sequentially; what they do to the outside
    world (the aiojobs scheduler, the HTTP client, [asyncio.sleep]) is
    recorded as a trace of events, and what the outside world answers (the
    reply or the exception of a fetch, the creation of the scheduler, the
    end of the jobs that [close] waits for) is an argument of the call.
    The poller is the one coroutine whose suspension points matter: there
    the script of the environment says whether a concurrent [close()] has
    flipped [_closed] in the meantime. *)

From Stdlib Require Import ZArith QArith Lia Sorted.
From stdpp Require Import base option list strings gmap.

Local Open Scope string_scope.
Local Open Scope Z_scope.
Local Open Scope list_scope.

(** ** Values that cross the module's boundary *)

(** Modelled from the spec: the members of the three classification enums
    of [aiotelegrambot.types], which is not among the sources.  The code
    names only [Content.COMMAND] (and the example [Content.TEXT]); the
    other members follow the glossary (group vs. direct chat, new vs.
    edited message, an "unknown" kind). *)
Inductive Chat := PRIVATE | GROUP.
Inductive Incoming := NEW_MESSAGE | EDITED_MESSAGE.
Inductive Content := TEXT | COMMAND | UNKNOWN.

(** [Union[Chat, Incoming, Content]], the annotation of [message_type]. *)
Inductive MessageType :=
| OfChat (c : Chat)
| OfIncoming (i : Incoming)
| OfContent (c : Content).

(** Modelled from the spec: the rules of [aiotelegrambot.rules] that the
    sources construct: [Command()] in [Bot.command], [Contains(...)] in the
    example. *)
Inductive Rule :=
| Command
| Contains (needle : string).

(** What a caller may pass where the signature says [message_type]: Python
    does not enforce the annotation.  [truthy] is Python's truth value:
    [None], [0] and the empty string are falsy, a member of a plain [Enum]
    is truthy. *)
Inductive pyval :=
| PyNone
| PyInt (z : Z)
| PyStr (s : string)
| PyKind (k : MessageType).

Definition truthy (v : pyval) : bool :=
  match v with
  | PyNone => false
  | PyInt z => negb (Z.eqb z 0)
  | PyStr s => negb (String.eqb s "")
  | PyKind _ => true
  end.

(** A function object, identified by its name. *)
Definition Callback := string.

(** What a call hands back to the decorated name: [None] or a function. *)
Inductive pyobj :=
| RetNone
| RetFunc (f : Callback).

(** One update of the reply to [getUpdates]: [raw["update_id"]] and the
    rest of the dict, kept opaque. *)
Record RawUpdate := { update_id : Z; payload : string }.

(** The dict returned by [client.get_updates]: [{"ok": ..., "result": [...]}].
    It has keys, so it is truthy; [data] itself may be [None]. *)
Record Reply := { ok : bool; result : list RawUpdate }.

(** The exceptions that the module raises or catches.  [TimeoutError] is
    [asyncio.TimeoutError], [ClientError] an [aiohttp.ClientError] that is
    not a timeout, and [ServerTimeoutError] aiohttp's class that derives
    from both.  [AttributeError] and [TypeError] are what Python raises
    when [None] is used as a scheduler or as a client. *)
Inductive exn :=
| BotError (msg : string)
| RuntimeError (msg : string)
| TelegramApiError (status : Z)
| TimeoutError
| ClientError
| ServerTimeoutError
| AttributeError (msg : string)
| TypeError (msg : string).

(** [isinstance(e, asyncio.TimeoutError)]. *)
Definition is_asyncio_TimeoutError (e : exn) : bool :=
  match e with
  | TimeoutError | ServerTimeoutError => true
  | _ => false
  end.

(** [isinstance(e, aiohttp.ClientError)]. *)
Definition is_aiohttp_ClientError (e : exn) : bool :=
  match e with
  | ClientError | ServerTimeoutError => true
  | _ => false
  end.

(** The names the specification gives to the two errors of the lifecycle. *)
Definition ConfigurationError : exn := BotError "Can't initialize with no one handler".
Definition NotInitializedError : exn := RuntimeError "The bot isn't initialized".

(** ** Handlers, messages, jobs *)

(** The keyword arguments of [Handlers.add], as [add_handler] forwards
    them, with the callback they register. *)
Record HandlerEntry := {
  entry_chat_type : option Chat;
  entry_incoming : option Incoming;
  entry_content_type : pyval;
  entry_rule : option Rule;
  entry_callback : Callback
}.

(** Modelled from the spec: [aiotelegrambot.handler.Handlers] is not among
    the sources.  The registry is the ordered list of its entries;
    [Handlers_add] is "append a (predicate, callback) pair to an ordered
    list, return the callback unchanged"; the registry is falsy exactly
    when nothing is registered ("requires at least one registered
    handler"). *)
Definition Handlers := list HandlerEntry.

Definition Handlers_new : Handlers := [].

Definition Handlers_add (chat_type : option Chat) (incoming : option Incoming)
    (content_type : pyval) (rule : option Rule)
    (hs : Handlers) (handler : Callback) : Handlers * pyobj :=
  (hs ++ [ {| entry_chat_type := chat_type; entry_incoming := incoming;
              entry_content_type := content_type; entry_rule := rule;
              entry_callback := handler |} ],
   RetFunc handler).

Definition Handlers_bool (hs : Handlers) : bool :=
  match hs with
  | [] => false
  | _ :: _ => true
  end.

(** [Message(self.client, data, self.ctx, chat_type, incoming, content_type)].
    The third argument is a reference to the bot's own [ctx], not a copy,
    so the record does not store it. *)
Record Message := {
  msg_client : option string;
  msg_raw : RawUpdate;
  msg_chat_type : Chat;
  msg_incoming : Incoming;
  msg_content_type : Content
}.

(** The coroutines handed to [self._scheduler.spawn]: the poller
    [self._get_updates(interval)], and [self.middlewares(Message(...), handler)]
    for one update ([None] stands for the registry's default handler). *)
Inductive Job :=
| PollerJob (interval : Q)
| DispatchJob (m : Message) (handler : option Callback).

(** The aiojobs scheduler, as far as the bot uses it: the jobs handed to
    it, in the order they were spawned.  The scheduler itself keeps its
    jobs in a set and forgets a job once it has ended; what iterating it
    yields at a given moment is therefore the environment's answer (see
    [close]). *)
Record Scheduler := { jobs : list Job }.

(** The keyword arguments that [initialize] passes on to
    [aiojobs.create_scheduler]. *)
Definition SchedulerOptions := list (string * pyval).

(** What the environment answers to the waits of [close]: the jobs that
    iterating the scheduler yields, in the order it yields them, each with
    the exception that its coroutine raised, if any. *)
Definition Drain := list (Job * option exn).

Inductive event :=
| EvCreateScheduler (options : SchedulerOptions)
| EvSpawn (j : Job)
| EvWait (j : Job)
| EvCloseScheduler
| EvFetch (offset : Z)
| EvProcessError (status : Z)
| EvLog (e : exn)
| EvSleep (seconds : Q).

(** ** The bot *)

Record Bot := {
  handlers : Handlers;
  middlewares : list Callback;
  _scheduler : option Scheduler;
  _closed : bool;
  _update_id : Z;
  ctx : gmap string string;
  client : option string;
  webhook : option bool
}.

Definition set_closed (v : bool) (b : Bot) : Bot :=
  {| handlers := handlers b; middlewares := middlewares b;
     _scheduler := _scheduler b; _closed := v; _update_id := _update_id b;
     ctx := ctx b; client := client b; webhook := webhook b |}.

Definition set_scheduler (v : option Scheduler) (b : Bot) : Bot :=
  {| handlers := handlers b; middlewares := middlewares b;
     _scheduler := v; _closed := _closed b; _update_id := _update_id b;
     ctx := ctx b; client := client b; webhook := webhook b |}.

Definition set_update_id (v : Z) (b : Bot) : Bot :=
  {| handlers := handlers b; middlewares := middlewares b;
     _scheduler := _scheduler b; _closed := _closed b; _update_id := v;
     ctx := ctx b; client := client b; webhook := webhook b |}.

Definition set_handlers (v : Handlers) (b : Bot) : Bot :=
  {| handlers := v; middlewares := middlewares b;
     _scheduler := _scheduler b; _closed := _closed b; _update_id := _update_id b;
     ctx := ctx b; client := client b; webhook := webhook b |}.

(** ** State, errors and the trace of events *)

Definition Outcome (A : Type) : Type := (exn + A) * Bot * list event.
Definition M (A : Type) : Type := Bot -> Outcome A.

Definition ret {A} (a : A) : M A := fun b => (inr a, b, []).
Definition raise {A} (e : exn) : M A := fun b => (inl e, b, []).

Definition bind {A B} (m : M A) (k : A -> M B) : M B :=
  fun b =>
    match m b with
    | (inl e, b1, t1) => (inl e, b1, t1)
    | (inr a, b1, t1) =>
        match k a b1 with
        | (r, b2, t2) => (r, b2, t1 ++ t2)
        end
    end.

Definition get : M Bot := fun b => (inr b, b, []).
Definition modify (f : Bot -> Bot) : M unit := fun b => (inr tt, f b, []).
Definition emit (e : event) : M unit := fun b => (inr tt, b, [e]).

(** [try: body  except ...: handler], where [handler] answers [None] for an
    exception that no clause catches. *)
Definition try_except {A} (body : M A) (handler : exn -> option (M A)) : M A :=
  fun b =>
    match body b with
    | (inl e, b1, t1) =>
        match handler e with
        | Some h =>
            match h b1 with
            | (r, b2, t2) => (r, b2, t1 ++ t2)
            end
        | None => (inl e, b1, t1)
        end
    | ok_result => ok_result
    end.

Notation "'do' x <- m ; k" := (bind m (fun x => k))
  (at level 10, x name, m at level 100, k at level 200).

(** [for x in xs: body x]. *)
Fixpoint for_each {A} (xs : list A) (body : A -> M unit) : M unit :=
  match xs with
  | [] => ret tt
  | x :: rest => do _ <- body x; for_each rest body
  end.

Definition result_of {A} (o : Outcome A) : exn + A := o.1.1.
Definition state_of {A} (o : Outcome A) : Bot := o.1.2.
Definition trace_of {A} (o : Outcome A) : list event := o.2.

(** ** class BotBase *)

(** [BotBase.__init__(handlers=None)]: [self.handlers = handlers or Handlers()]. *)
Definition BotBase_init (hs : option Handlers) : Bot :=
  {| handlers := match hs with
                 | Some h => if Handlers_bool h then h else Handlers_new
                 | None => Handlers_new
                 end;
     middlewares := [];
     _scheduler := None;
     _closed := true;
     _update_id := 0;
     ctx := ∅;
     client := None;
     webhook := None |}.

(** [Bot.__init__]: [super().__init__()], then [client] and [webhook] are
    [None]. *)
Definition Bot_init : Bot := BotBase_init None.

(** [Bot.run] up to the call of [self._start()]. *)
Definition run_assign (token : string) (wh : bool) (b : Bot) : Bot :=
  {| handlers := handlers b; middlewares := middlewares b;
     _scheduler := _scheduler b; _closed := _closed b; _update_id := _update_id b;
     ctx := ctx b; client := Some token; webhook := Some wh |}.

(** [await aiojobs.create_scheduler(...)] with the scheduler options of
    [initialize]: the library hands out a scheduler, or raises
    ([answer]). *)
Definition create_scheduler (scheduler_options : SchedulerOptions)
    (answer : option exn) : M Scheduler :=
  do _ <- emit (EvCreateScheduler scheduler_options);
  match answer with
  | Some e => raise e
  | None => ret {| jobs := [] |}
  end.

(** [await self._scheduler.spawn(coro)]. *)
Definition scheduler_spawn (j : Job) : M unit :=
  do b <- get;
  match _scheduler b with
  | None => raise (AttributeError "'NoneType' object has no attribute 'spawn'")
  | Some s =>
      do _ <- modify (set_scheduler (Some {| jobs := jobs s ++ [j] |}));
      emit (EvSpawn j)
  end.

(** [initialize(webhook=wh, interval=interval, **scheduler_options)];
    [answer] is how [aiojobs.create_scheduler] ends.  [_closed] is written
    before the scheduler is asked for. *)
Definition initialize (wh : bool) (interval : Q)
    (scheduler_options : SchedulerOptions) (answer : option exn) : M unit :=
  do b <- get;
  match _closed b with
  | false => ret tt
  | true =>
      if negb (Handlers_bool (handlers b))
      then raise (BotError "Can't initialize with no one handler")
      else
        do _ <- modify (set_closed false);
        do s <- create_scheduler scheduler_options answer;
        do _ <- modify (set_scheduler (Some s));
        match wh with
        | false => scheduler_spawn (PollerJob interval)
        | true => ret tt
        end
  end.

(** [await job.wait()]: it returns when the job has ended, and raises what
    the coroutine of the job raised, if it raised. *)
Definition job_wait (w : Job * option exn) : M unit :=
  do _ <- emit (EvWait w.1);
  match w.2 with
  | Some e => raise e
  | None => ret tt
  end.

(** [close()]; [for job in self._scheduler] goes through [drain]. *)
Definition close (drain : Drain) : M unit :=
  do b <- get;
  if _closed b then ret tt
  else
    do _ <- modify (set_closed true);
    do _ <- match _scheduler b with
            | None => raise (TypeError "'NoneType' object is not iterable")
            | Some _ => for_each drain job_wait
            end;
    do _ <- emit EvCloseScheduler;
    do _ <- modify (set_scheduler None);
    modify (set_update_id 0).

(** [self.handlers.add(...)(handler)]: the value of the call is
    dropped, and a Python function without [return] answers [None]. *)
Definition add_handler (handler : Callback) (chat_type : option Chat)
    (incoming : option Incoming) (content_type : pyval) (rule : option Rule)
    : M pyobj :=
  do b <- get;
  do _ <- modify (set_handlers
                    (Handlers_add chat_type incoming content_type rule
                       (handlers b) handler).1);
  ret RetNone.

(** ** class Bot *)

(** The decorator that [command()] returns, applied to [func]. *)
Definition command (func : Callback) : M pyobj :=
  add_handler func None None (PyKind (OfContent COMMAND)) (Some Command).

Definition trigger_message (message_type : pyval) (rule : option Rule)
    : M (Callback -> M pyobj) :=
  if negb (truthy message_type)
  then raise (BotError "message_type Union[Chat, Incoming, Content] must be specifized")
  else ret (fun func => add_handler func None None message_type rule).

(** [@bot.trigger_message(message_type, rule)] over [def func]: the call,
    then the decorator it returned applied to [func]. *)
Definition decorate_trigger_message (message_type : pyval) (rule : option Rule)
    (func : Callback) : M pyobj :=
  do decorator <- trigger_message message_type rule;
  decorator func.

(** What the environment does in one iteration of the poller: the outcome
    of [client.get_updates], and whether a concurrent [close()] runs its
    first statement ([self._closed = True]) while the poller is suspended
    in the fetch or in a sleep.  [close()] then blocks in [job.wait()] until
    the poller has ended, so this flip is all it does to the bot while the
    poller runs. *)
Record Turn := {
  fetched : exn + option Reply;
  close_during_fetch : bool;
  close_during_sleep : bool
}.

Definition suspended (flip : bool) : M unit :=
  if flip then modify (set_closed true) else ret tt.

(** [await asyncio.sleep(seconds)]. *)
Definition sleep (t : Turn) (seconds : Q) : M unit :=
  do _ <- emit (EvSleep seconds);
  suspended (close_during_sleep t).

(** [await self.client.get_updates(offset)]. *)
Definition client_get_updates (t : Turn) (offset : Z) : M (option Reply) :=
  do b <- get;
  match client b with
  | None => raise (AttributeError "'NoneType' object has no attribute 'get_updates'")
  | Some _ =>
      do _ <- emit (EvFetch offset);
      do _ <- suspended (close_during_fetch t);
      match fetched t with
      | inl e => raise e
      | inr data => ret data
      end
  end.

(** The scripts of the environment in which [client.get_updates] raises
    only what the specification lists for [Fetch]. *)
Definition fetch_error_listed (e : exn) : bool :=
  match e with
  | TelegramApiError _ => true
  | _ => is_asyncio_TimeoutError e || is_aiohttp_ClientError e
  end.

Definition turn_listed (t : Turn) : bool :=
  match fetched t with
  | inl e => fetch_error_listed e
  | inr _ => true
  end.

Definition never_closes (t : Turn) : bool :=
  negb (close_during_fetch t) && negb (close_during_sleep t).

Inductive LoopExit :=
| Stopped        (* the [while] test failed *)
| StillPolling.  (* the script ended while the loop was alive *)

(** ** Notions used by the statements *)

Definition Running (b : Bot) : Prop := _closed b = false.

(** While the bot runs it has a scheduler. *)
Definition bot_inv (b : Bot) : Prop :=
  _closed b = false -> exists s, _scheduler b = Some s.

Definition sched_jobs (b : Bot) : list Job :=
  match _scheduler b with
  | Some s => jobs s
  | None => []
  end.

(** [max(update_id in batch)], starting from [floor]. *)
Definition max_update_id (floor : Z) (batch : list RawUpdate) : Z :=
  foldl (fun acc raw => Z.max (update_id raw) acc) floor batch.

(** The largest [update_id] of a batch that is not empty. *)
Definition batch_max (batch : list RawUpdate) : option Z :=
  match batch with
  | [] => None
  | raw :: rest => Some (max_update_id (update_id raw) rest)
  end.

(** The identifiers of the batch increase strictly, update after update. *)
Fixpoint increasing_from (prev : Z) (batch : list RawUpdate) : bool :=
  match batch with
  | [] => true
  | raw :: rest => (prev <? update_id raw) && increasing_from (update_id raw) rest
  end.

Definition strictly_increasing (batch : list RawUpdate) : bool :=
  match batch with
  | [] => true
  | raw :: rest => increasing_from (update_id raw) rest
  end.

Definition well_ordered (data : option Reply) : bool :=
  match data with
  | None => true
  | Some d => strictly_increasing (result d)
  end.

(** The batch that a reply carries; none when the data is absent. *)
Definition data_batch (data : option Reply) : list RawUpdate :=
  match data with
  | None => []
  | Some d => result d
  end.

(** The offsets asked of the client, in the order of the trace. *)
Fixpoint fetch_offsets (tr : list event) : list Z :=
  match tr with
  | [] => []
  | EvFetch offset :: rest => offset :: fetch_offsets rest
  | _ :: rest => fetch_offsets rest
  end.

(** The reply to a fetch at [offset] holds no update below [offset]. *)
Definition fetched_at (offset : Z) (data : option Reply) : bool :=
  forallb (fun raw => offset <=? update_id raw) (data_batch data).

(** The waits that all return normally, for the given jobs. *)
Definition quiet_drain (js : list Job) : Drain := map (fun j => (j, None)) js.

(** The first wait of a drain that raises: its position and what it
    raises. *)
Fixpoint first_failure (drain : Drain) : option (nat * exn) :=
  match drain with
  | [] => None
  | (_, Some e) :: _ => Some (0%nat, e)
  | (_, None) :: rest =>
      match first_failure rest with
      | Some (k, e) => Some (S k, e)
      | None => None
      end
  end.

(** The bot after a suspension point of the poller. *)
Definition flip_if (flip : bool) (b : Bot) : Bot :=
  if flip then set_closed true b else b.

(** ** Inputs used to run the model on concrete data *)

Definition classify_as_text (_ : RawUpdate) : Chat * Incoming * Content :=
  (PRIVATE, NEW_MESSAGE, TEXT).

Definition Content_eqb (c d : Content) : bool :=
  match c, d with
  | TEXT, TEXT | COMMAND, COMMAND | UNKNOWN, UNKNOWN => true
  | _, _ => false
  end.

(** First entry registered for the content kind, the default handler
    ([None]) when there is none. *)
Fixpoint first_for_content (hs : Handlers) (chat_type : Chat) (incoming : Incoming)
    (content_type : Content) (data : RawUpdate) : option Callback :=
  match hs with
  | [] => None
  | e :: rest =>
      match entry_content_type e with
      | PyKind (OfContent c) =>
          if Content_eqb c content_type then Some (entry_callback e)
          else first_for_content rest chat_type incoming content_type data
      | _ => first_for_content rest chat_type incoming content_type data
      end
  end.

Definition upd (n : Z) : RawUpdate := {| update_id := n; payload := "hi there" |}.

(** The bot of [examples/polling.py] once [run] has started it: one handler
    for [Content.TEXT] with [Contains("hi")], the poller in the scheduler,
    and the tracker at [offset]. *)
Definition running_bot (offset : Z) : Bot :=
  {| handlers := [ {| entry_chat_type := None; entry_incoming := None;
                      entry_content_type := PyKind (OfContent TEXT);
                      entry_rule := Some (Contains "hi");
                      entry_callback := "hi" |} ];
     middlewares := [];
     _scheduler := Some {| jobs := [PollerJob 0.1%Q] |};
     _closed := false;
     _update_id := offset;
     ctx := ∅;
     client := Some "token";
     webhook := Some false |}.

Definition reply_of (batch : list RawUpdate) : option Reply :=
  Some {| ok := true; result := batch |}.

Definition quiet_turn (r : exn + option Reply) : Turn :=
  {| fetched := r; close_during_fetch := false; close_during_sleep := false |}.

(** A fetch during which [close()] is called. *)
Definition closing_turn (r : exn + option Reply) : Turn :=
  {| fetched := r; close_during_fetch := true; close_during_sleep := false |}.

(** The sleep during which [close()] is called. *)
Definition sleep_closing_turn (r : exn + option Reply) : Turn :=
  {| fetched := r; close_during_fetch := false; close_during_sleep := true |}.

(** A fresh bot with one command registered, and the same bot started by
    [initialize] alone, without [run]: its client is still [None]. *)
Definition bot_with_command : Bot := state_of (command "start" Bot_init).

Definition started_without_run : Bot :=
  state_of (initialize false 0.1%Q [] None bot_with_command).

(** The running bot with a tracker at [offset] and, besides the poller, the
    job of update 1 in flight. *)
Definition hi_job : Job :=
  DispatchJob
    {| msg_client := Some "token"; msg_raw := upd 1; msg_chat_type := PRIVATE;
       msg_incoming := NEW_MESSAGE; msg_content_type := TEXT |}
    (Some "hi").

Definition busy_bot (offset : Z) : Bot :=
  set_scheduler (Some {| jobs := [PollerJob 0.1%Q; hi_job] |}) (running_bot offset).

(** The waits of a [close] during which the handler of [hi_job] raises. *)
Definition failing_drain : Drain :=
  [(PollerJob 0.1%Q, None); (hi_job, Some (RuntimeError "handler failed"))].

Section Dispatch.

(** [recognize_type] of [aiotelegrambot.types] and [Handlers.get] of
    [aiotelegrambot.handler] are not among the sources; the bot only hands
    their results on. *)
Variable recognize_type : RawUpdate -> Chat * Incoming * Content.
Variable Handlers_get :
  Handlers -> Chat -> Incoming -> Content -> RawUpdate -> option Callback.

(** The coroutine that [process_update] builds for one update. *)
Definition dispatch_job (b : Bot) (data : RawUpdate) : Job :=
  match recognize_type data with
  | (chat_type, incoming, content_type) =>
      DispatchJob
        {| msg_client := client b; msg_raw := data; msg_chat_type := chat_type;
           msg_incoming := incoming; msg_content_type := content_type |}
        (Handlers_get (handlers b) chat_type incoming content_type data)
  end.

Definition process_update (data : RawUpdate) : M unit :=
  do b <- get;
  match _closed b with
  | true => raise (RuntimeError "The bot isn't initialized")
  | false => scheduler_spawn (dispatch_job b data)
  end.

(** The body of the [for] loop of [_process_updates]. *)
Definition process_one (raw : RawUpdate) : M unit :=
  do _ <- process_update raw;
  do b <- get;
  modify (set_update_id (Z.max (update_id raw) (_update_id b))).

(** [self._update_id += 1 if data["result"] else 0]. *)
Definition bump (batch : list RawUpdate) : M unit :=
  do b <- get;
  modify (set_update_id (_update_id b + match batch with [] => 0 | _ :: _ => 1 end)).

Definition _process_updates (data : option Reply) : M unit :=
  match data with
  | None => ret tt
  | Some d =>
      do _ <- for_each (result d) process_one;
      bump (result d)
  end.

(** The [except] clauses of the loop, tried in the order of the source:
    the first one whose class the exception belongs to handles it. *)
Definition poll_except (t : Turn) (e : exn) : option (M unit) :=
  match e with
  | TelegramApiError status =>
      Some (do _ <- emit (EvProcessError status);
            if 500 <=? status then sleep t 30%Q else sleep t 10%Q)
  | _ =>
      if is_asyncio_TimeoutError e then Some (emit (EvLog e))
      else if is_aiohttp_ClientError e
           then Some (do _ <- emit (EvLog e); sleep t 10%Q)
           else None
  end.

(** One pass through the body of the [while] loop. *)
Definition poll_once (interval : Q) (t : Turn) : M unit :=
  try_except
    (do b <- get;
     do data <- client_get_updates t (_update_id b);
     do _ <- _process_updates data;
     sleep t interval)
    (poll_except t).

Fixpoint _get_updates (interval : Q) (turns : list Turn) : M LoopExit :=
  do b <- get;
  match _closed b with
  | true => ret Stopped
  | false =>
      match turns with
      | [] => ret StillPolling
      | t :: rest =>
          do _ <- poll_once interval t;
          _get_updates interval rest
      end
  end.

(** The states that another task can observe while the [for] loop of
    [_process_updates] runs: the one after each [await self.process_update(raw)]
    and the one after each assignment to [self._update_id]. *)
Fixpoint batch_snapshots (batch : list RawUpdate) (b : Bot) : list Bot :=
  match batch with
  | [] => []
  | raw :: rest =>
      match process_update raw b with
      | (inl _, b1, _) => [b1]
      | (inr _, b1, _) =>
          let b2 := set_update_id (Z.max (update_id raw) (_update_id b1)) b1 in
          b1 :: b2 :: batch_snapshots rest b2
      end
  end.

(** All the states of one call of [_process_updates] on a batch, the last
    one being the state after the final increment. *)
Definition process_updates_snapshots (batch : list RawUpdate) (b : Bot) : list Bot :=
  batch_snapshots batch b ++ [state_of (_process_updates (reply_of batch) b)].

(** The calls that the owner of a bot, or the poller on its behalf, can
    make. *)
Inductive op :=
| OpInitialize (wh : bool) (interval : Q) (scheduler_options : SchedulerOptions)
    (answer : option exn)
| OpClose (drain : Drain)
| OpAddHandler (handler : Callback) (chat_type : option Chat)
    (incoming : option Incoming) (content_type : pyval) (rule : option Rule)
| OpCommand (func : Callback)
| OpTriggerMessage (message_type : pyval) (rule : option Rule) (func : Callback)
| OpProcessUpdate (raw : RawUpdate)
| OpProcessUpdates (data : option Reply)
| OpGetUpdates (interval : Q) (turns : list Turn).

Definition exec (o : op) : M unit :=
  match o with
  | OpInitialize wh interval scheduler_options answer =>
      initialize wh interval scheduler_options answer
  | OpClose drain => close drain
  | OpAddHandler handler chat_type incoming content_type rule =>
      do _ <- add_handler handler chat_type incoming content_type rule; ret tt
  | OpCommand func => do _ <- command func; ret tt
  | OpTriggerMessage message_type rule func =>
      do _ <- decorate_trigger_message message_type rule func; ret tt
  | OpProcessUpdate raw => process_update raw
  | OpProcessUpdates data => _process_updates data
  | OpGetUpdates interval turns => do _ <- _get_updates interval turns; ret tt
  end.

(** The calls in which [aiojobs.create_scheduler] does not raise. *)
Definition start_succeeds (o : op) : bool :=
  match o with
  | OpInitialize _ _ _ (Some _) => false
  | _ => true
  end.

(** A sequence of calls, each starting from the state that the previous
    one left, whether it returned or raised. *)
Fixpoint exec_all (ops : list op) (b : Bot) : Bot :=
  match ops with
  | [] => b
  | o :: rest => exec_all rest (state_of (exec o b))
  end.

(** The bot after [batch] has gone through the [for] loop. *)
Definition after_batch (b : Bot) (s : Scheduler) (batch : list RawUpdate) : Bot :=
  set_update_id (max_update_id (_update_id b) batch)
    (set_scheduler (Some {| jobs := jobs s ++ map (dispatch_job b) batch |}) b).

End Dispatch.

(** * Properties *)

(** ** The monad *)

Lemma bind_ok {A B} (m : M A) (k : A -> M B) b a b1 t1 :
  m b = (inr a, b1, t1) ->
  bind m k b = (result_of (k a b1), state_of (k a b1), t1 ++ trace_of (k a b1)).
Proof.
  intros Hm. unfold bind. rewrite Hm.
  destruct (k a b1) as [[r b2] t2]. reflexivity.
Qed.

Lemma bind_raise {A B} (m : M A) (k : A -> M B) b e b1 t1 :
  m b = (inl e, b1, t1) -> bind m k b = (inl e, b1, t1).
Proof. intros Hm. unfold bind. rewrite Hm. reflexivity. Qed.

(** ** The invariant of the lifecycle *)

Lemma Bot_init_inv : bot_inv Bot_init.
Proof. intros H. discriminate H. Qed.

(** The start of a closed bot whose registry is truthy: a fresh scheduler,
    and the poller in it unless the bot is fed by a webhook. *)
Lemma initialize_truthy wh interval scheduler_options b :
  _closed b = true -> Handlers_bool (handlers b) = true ->
  initialize wh interval scheduler_options None b
  = (inr tt,
     set_scheduler (Some {| jobs := if wh then [] else [PollerJob interval] |})
       (set_closed false b),
     EvCreateScheduler scheduler_options
     :: if wh then [] else [EvSpawn (PollerJob interval)]).
Proof.
  intros Hc Hh. unfold initialize, bind at 1, get. rewrite Hc, Hh.
  destruct wh; reflexivity.
Qed.

Lemma initialize_starts wh interval scheduler_options b :
  _closed b = true -> handlers b <> [] ->
  initialize wh interval scheduler_options None b
  = (inr tt,
     set_scheduler (Some {| jobs := if wh then [] else [PollerJob interval] |})
       (set_closed false b),
     EvCreateScheduler scheduler_options
     :: if wh then [] else [EvSpawn (PollerJob interval)]).
Proof.
  intros Hc Hh. apply initialize_truthy; [exact Hc|].
  destruct (handlers b); [congruence | reflexivity].
Qed.


Lemma initialize_running wh interval scheduler_options answer b :
  _closed b = false ->
  initialize wh interval scheduler_options answer b = (inr tt, b, []).
Proof. intros Hc. unfold initialize, bind, get. rewrite Hc. reflexivity. Qed.

Lemma initialize_no_handlers wh interval scheduler_options answer b :
  _closed b = true -> Handlers_bool (handlers b) = false ->
  initialize wh interval scheduler_options answer b
  = (inl ConfigurationError, b, []).
Proof. intros Hc Hh. unfold initialize, bind, get. rewrite Hc, Hh. reflexivity. Qed.

Lemma initialize_inv wh interval scheduler_options b :
  bot_inv b ->
  bot_inv (state_of (initialize wh interval scheduler_options None b)).
Proof.
  intros Hinv. destruct (_closed b) eqn:Hc.
  - destruct (Handlers_bool (handlers b)) eqn:Hh.
    + rewrite (initialize_truthy wh interval scheduler_options b Hc Hh).
      intros _. eexists. reflexivity.
    + rewrite (initialize_no_handlers wh interval scheduler_options None b Hc Hh).
      exact Hinv.
  - rewrite (initialize_running wh interval scheduler_options None b Hc). exact Hinv.
Qed.

(** The waits of [close] go on until one of them raises; none changes the
    bot. *)
Lemma wait_all (drain : Drain) b :
  for_each drain job_wait b
  = match first_failure drain with
    | None => (inr tt, b, map EvWait (map fst drain))
    | Some (k, e) => (inl e, b, map EvWait (map fst (take (S k) drain)))
    end.
Proof.
  induction drain as [|[j [e|]] rest IH]; cbn [for_each first_failure].
  - reflexivity.
  - reflexivity.
  - unfold bind at 1, job_wait at 1, bind at 1, emit at 1. cbn [fst snd].
    unfold ret at 1. rewrite IH.
    destruct (first_failure rest) as [[k e]|]; reflexivity.
Qed.

Lemma close_running (drain : Drain) b s :
  _closed b = false -> _scheduler b = Some s ->
  close drain b
  = match first_failure drain with
    | None =>
        (inr tt,
         set_update_id 0 (set_scheduler None (set_closed true b)),
         map EvWait (map fst drain) ++ [EvCloseScheduler])
    | Some (k, e) =>
        (inl e, set_closed true b, map EvWait (map fst (take (S k) drain)))
    end.
Proof.
  intros Hc Hs. unfold close, bind at 1, get. rewrite Hc.
  unfold bind at 1, modify at 1. rewrite Hs.
  unfold bind at 1. rewrite wait_all.
  destruct (first_failure drain) as [[k e]|]; reflexivity.
Qed.

Lemma close_closed (drain : Drain) b :
  _closed b = true -> close drain b = (inr tt, b, []).
Proof. intros Hc. unfold close, bind, get. rewrite Hc. reflexivity. Qed.

Lemma close_no_scheduler (drain : Drain) b :
  _closed b = false -> _scheduler b = None ->
  close drain b
  = (inl (TypeError "'NoneType' object is not iterable"), set_closed true b, []).
Proof.
  intros Hc Hs. unfold close, bind at 1, get. rewrite Hc.
  unfold bind at 1, modify at 1. rewrite Hs. reflexivity.
Qed.

(** After [close], returned or raised, the bot is closed. *)
Lemma close_closes (drain : Drain) b : _closed (state_of (close drain b)) = true.
Proof.
  destruct (_closed b) eqn:Hc.
  - rewrite (close_closed drain b Hc). exact Hc.
  - destruct (_scheduler b) as [s|] eqn:Hs.
    + rewrite (close_running drain b s Hc Hs).
      destruct (first_failure drain) as [[k e]|]; reflexivity.
    + rewrite (close_no_scheduler drain b Hc Hs). reflexivity.
Qed.

Lemma close_inv (drain : Drain) b : bot_inv (state_of (close drain b)).
Proof. intros H. rewrite close_closes in H. discriminate H. Qed.

Lemma first_failure_quiet js : first_failure (quiet_drain js) = None.
Proof.
  induction js as [|j js IH]; [reflexivity|].
  cbn [quiet_drain map first_failure]. fold (quiet_drain js). rewrite IH. reflexivity.
Qed.

Lemma quiet_drain_jobs js : map fst (quiet_drain js) = js.
Proof.
  induction js as [|j js IH]; [reflexivity|].
  cbn [quiet_drain map fst]. fold (quiet_drain js). rewrite IH. reflexivity.
Qed.

Lemma add_handler_inv handler chat_type incoming content_type rule b :
  bot_inv b ->
  bot_inv (state_of (add_handler handler chat_type incoming content_type rule b)).
Proof. intros Hinv. exact Hinv. Qed.

(** ** The running maximum of the update identifiers *)

Lemma max_update_id_floor f batch : f <= max_update_id f batch.
Proof.
  revert f. induction batch as [|raw rest IH]; intros f; cbn.
  - lia.
  - specialize (IH (Z.max (update_id raw) f)). unfold max_update_id in IH. lia.
Qed.

Lemma max_update_id_max a c batch :
  max_update_id (Z.max a c) batch = Z.max a (max_update_id c batch).
Proof.
  revert c. induction batch as [|raw rest IH]; intros c; cbn.
  - reflexivity.
  - fold (max_update_id (Z.max (update_id raw) (Z.max a c)) rest).
    fold (max_update_id (Z.max (update_id raw) c) rest).
    rewrite <- IH. f_equal. lia.
Qed.

(** The tracker after a batch: the larger of its old value and of the
    largest identifier of the batch. *)
Lemma max_update_id_batch_max f batch m :
  batch_max batch = Some m -> max_update_id f batch = Z.max f m.
Proof.
  destruct batch as [|raw rest]; cbn; intros H; [discriminate H|].
  injection H as <-.
  fold (max_update_id (Z.max (update_id raw) f) rest).
  rewrite Z.max_comm. apply max_update_id_max.
Qed.

(** In a batch with strictly increasing identifiers the largest one is the
    last one. *)
Lemma batch_max_last batch x :
  strictly_increasing batch = true -> last batch = Some x ->
  batch_max batch = Some (update_id x).
Proof.
  destruct batch as [|raw rest]; [discriminate|].
  cbn [strictly_increasing batch_max].
  revert raw. induction rest as [|r2 rest IH]; intros raw Hinc Hlast.
  - cbn in *. congruence.
  - cbn [increasing_from] in Hinc. apply andb_true_iff in Hinc as [Hlt Hinc].
    apply Z.ltb_lt in Hlt.
    cbn [max_update_id foldl].
    replace (Z.max (update_id r2) (update_id raw)) with (update_id r2) by lia.
    apply (IH r2 Hinc). exact Hlast.
Qed.

Lemma max_update_id_ge f batch raw :
  raw ∈ batch -> update_id raw <= max_update_id f batch.
Proof.
  revert f. induction batch as [|r rest IH]; intros f Hin.
  - apply elem_of_nil in Hin. destruct Hin.
  - cbn [max_update_id foldl]. fold (max_update_id (Z.max (update_id r) f) rest).
    apply elem_of_cons in Hin as [-> | Hin].
    + pose proof (max_update_id_floor (Z.max (update_id r) f) rest). lia.
    + apply IH. exact Hin.
Qed.

Lemma set_update_id_same b : set_update_id (_update_id b) b = b.
Proof. destruct b. reflexivity. Qed.

Lemma fetch_offsets_app t1 t2 :
  fetch_offsets (t1 ++ t2) = fetch_offsets t1 ++ fetch_offsets t2.
Proof.
  induction t1 as [|e t1 IH]; [reflexivity|].
  destruct e; cbn; rewrite IH; reflexivity.
Qed.

Lemma fetch_offsets_spawns js : fetch_offsets (map EvSpawn js) = [].
Proof. induction js as [|j js IH]; [reflexivity | exact IH]. Qed.

Section Claims.

Variable recognize_type : RawUpdate -> Chat * Incoming * Content.
Variable Handlers_get :
  Handlers -> Chat -> Incoming -> Content -> RawUpdate -> option Callback.

Local Abbreviation dispatch_job' := (dispatch_job recognize_type Handlers_get).
Local Abbreviation process_update' := (process_update recognize_type Handlers_get).
Local Abbreviation process_one' := (process_one recognize_type Handlers_get).
Local Abbreviation _process_updates' := (_process_updates recognize_type Handlers_get).
Local Abbreviation poll_once' := (poll_once recognize_type Handlers_get).
Local Abbreviation _get_updates' := (_get_updates recognize_type Handlers_get).
Local Abbreviation batch_snapshots' := (batch_snapshots recognize_type Handlers_get).
Local Abbreviation process_updates_snapshots' :=
  (process_updates_snapshots recognize_type Handlers_get).
Local Abbreviation after_batch' := (after_batch recognize_type Handlers_get).

Lemma process_update_running b s raw :
  _closed b = false -> _scheduler b = Some s ->
  process_update' raw b
  = (inr tt, set_scheduler (Some {| jobs := jobs s ++ [dispatch_job' b raw] |}) b,
     [EvSpawn (dispatch_job' b raw)]).
Proof.
  intros Hc Hs. unfold process_update, bind at 1, get. rewrite Hc.
  unfold scheduler_spawn, bind at 1, get. rewrite Hs. reflexivity.
Qed.

Lemma process_update_closed b raw :
  _closed b = true -> process_update' raw b = (inl NotInitializedError, b, []).
Proof. intros Hc. unfold process_update, bind, get. rewrite Hc. reflexivity. Qed.

Lemma process_update_no_scheduler b raw :
  _closed b = false -> _scheduler b = None ->
  exists e, process_update' raw b = (inl e, b, []).
Proof.
  intros Hc Hs. unfold process_update, bind at 1, get. rewrite Hc.
  unfold scheduler_spawn, bind at 1, get. rewrite Hs. eexists. reflexivity.
Qed.

Lemma process_update_inv raw b :
  bot_inv b -> bot_inv (state_of (process_update' raw b)).
Proof.
  intros Hinv. destruct (_closed b) eqn:Hc.
  - rewrite process_update_closed by exact Hc. exact Hinv.
  - destruct (Hinv Hc) as [s Hs].
    rewrite (process_update_running b s) by assumption.
    intros _. eexists. reflexivity.
Qed.

Lemma process_one_running b s raw :
  _closed b = false -> _scheduler b = Some s ->
  process_one' raw b = (inr tt, after_batch' b s [raw], [EvSpawn (dispatch_job' b raw)]).
Proof.
  intros Hc Hs. unfold process_one.
  rewrite (bind_ok _ _ _ _ _ _ (process_update_running b s raw Hc Hs)).
  reflexivity.
Qed.

Lemma process_one_closed b raw :
  _closed b = true -> process_one' raw b = (inl NotInitializedError, b, []).
Proof.
  intros Hc. unfold process_one.
  apply bind_raise, process_update_closed, Hc.
Qed.

Lemma after_batch_cons b s raw rest :
  after_batch' (after_batch' b s [raw])
    {| jobs := jobs s ++ [dispatch_job' b raw] |} rest
  = after_batch' b s (raw :: rest).
Proof.
  unfold after_batch. cbn. rewrite <- app_assoc. reflexivity.
Qed.

Lemma for_each_running batch b s :
  _closed b = false -> _scheduler b = Some s ->
  for_each batch process_one' b
  = (inr tt, after_batch' b s batch, map EvSpawn (map (dispatch_job' b) batch)).
Proof.
  revert b s. induction batch as [|raw rest IH]; intros b s Hc Hs.
  - cbn. unfold ret, after_batch. cbn. rewrite app_nil_r.
    destruct b as [? ? sch ? ? ? ? ?]; cbn in *. subst sch. destruct s. reflexivity.
  - cbn [for_each].
    rewrite (bind_ok _ _ _ _ _ _ (process_one_running b s raw Hc Hs)).
    rewrite (IH (after_batch' b s [raw]) {| jobs := jobs s ++ [dispatch_job' b raw] |})
      by first [exact Hc | reflexivity].
    cbn [result_of state_of trace_of fst snd].
    rewrite after_batch_cons. reflexivity.
Qed.

Lemma for_each_closed raw rest b :
  _closed b = true ->
  for_each (raw :: rest) process_one' b = (inl NotInitializedError, b, []).
Proof. intros Hc. cbn [for_each]. apply bind_raise, process_one_closed, Hc. Qed.

Lemma process_updates_running batch b s :
  _closed b = false -> _scheduler b = Some s ->
  _process_updates' (reply_of batch) b
  = (inr tt,
     set_update_id (max_update_id (_update_id b) batch
                    + match batch with [] => 0 | _ :: _ => 1 end)
       (after_batch' b s batch),
     map EvSpawn (map (dispatch_job' b) batch)).
Proof.
  intros Hc Hs. unfold _process_updates, reply_of. cbn [result].
  rewrite (bind_ok _ _ _ _ _ _ (for_each_running batch b s Hc Hs)).
  cbn. rewrite app_nil_r. reflexivity.
Qed.

(** A batch that is not empty goes through only on a running bot. *)
Lemma process_updates_success raw rest b :
  result_of (_process_updates' (reply_of (raw :: rest)) b) = inr tt ->
  _closed b = false /\ exists s, _scheduler b = Some s.
Proof.
  intros Hok. destruct (_closed b) eqn:Hc.
  - unfold _process_updates, reply_of in Hok. cbn [result] in Hok.
    rewrite (bind_raise _ _ _ _ _ _ (for_each_closed raw rest b Hc)) in Hok.
    discriminate Hok.
  - split; [reflexivity|]. destruct (_scheduler b) as [s|] eqn:Hs; [eauto|].
    destruct (process_update_no_scheduler b raw Hc Hs) as [e He].
    unfold _process_updates, reply_of in Hok. cbn [result for_each] in Hok.
    unfold process_one at 1 in Hok.
    rewrite (bind_raise _ _ _ _ _ _
               (bind_raise _ _ _ _ _ _ (bind_raise _ _ _ _ _ _ He))) in Hok.
    discriminate Hok.
Qed.

(** The tracker never goes back. *)
Lemma process_updates_monotone batch b :
  result_of (_process_updates' (reply_of batch) b) = inr tt ->
  _update_id b <= _update_id (state_of (_process_updates' (reply_of batch) b)).
Proof.
  intros Hok. destruct batch as [|raw rest].
  - cbn. lia.
  - destruct (process_updates_success raw rest b Hok) as [Hc [s Hs]].
    rewrite (process_updates_running (raw :: rest) b s Hc Hs).
    cbn [state_of fst snd _update_id set_update_id].
    pose proof (max_update_id_floor (_update_id b) (raw :: rest)). lia.
Qed.

(** ** Processing one fetched batch *)

(** The tracker after a call that has completed, whatever the tracker was
    before: one more than the larger of its previous value and of the
    largest identifier of the batch. *)
Lemma process_updates_offset_max (data : option Reply) (b : Bot) :
  well_ordered data = true ->
  result_of (_process_updates' data b) = inr tt ->
  let after := _update_id (state_of (_process_updates' data b)) in
  match data with
  | None => after = _update_id b
  | Some d =>
      match batch_max (result d) with
      | None => after = _update_id b
      | Some m =>
          after = Z.max (_update_id b) m + 1
          /\ (_update_id b <= m -> after = m + 1)
      end
  end.
Proof.
  intros _ Hok. destruct data as [[o batch]|]; cbn zeta; [|reflexivity].
  change (_process_updates' (Some {| ok := o; result := batch |}) b)
    with (_process_updates' (reply_of batch) b) in *.
  cbn [result]. destruct batch as [|raw rest].
  - cbn. lia.
  - destruct (process_updates_success raw rest b Hok) as [Hc [s Hs]].
    rewrite (process_updates_running (raw :: rest) b s Hc Hs).
    cbn [state_of fst snd _update_id set_update_id].
    assert (Hm : batch_max (raw :: rest) = Some (max_update_id (update_id raw) rest))
      by reflexivity.
    rewrite Hm.
    rewrite (max_update_id_batch_max (_update_id b) (raw :: rest) _ Hm).
    split; [reflexivity | intros Hle; lia].
Qed.

Lemma batch_max_fetched offset batch m :
  batch_max batch = Some m ->
  forallb (fun raw => offset <=? update_id raw) batch = true ->
  offset <= m.
Proof.
  destruct batch as [|raw rest]; cbn [batch_max forallb]; intros Hm Hf;
    [discriminate Hm|].
  injection Hm as <-. apply andb_true_iff in Hf as [Hf _].
  apply Z.leb_le in Hf.
  pose proof (max_update_id_floor (update_id raw) rest). lia.
Qed.

(** C1: [_process_updates] receives the reply to
    [get_updates(self._update_id)], which holds no update below the
    tracker.  For every such batch with strictly increasing identifiers,
    once the call has completed the tracker is [max(update_id in batch) + 1]
    when the batch is not empty, and it is unchanged when the batch is
    empty or the data is absent. *)
Theorem process_updates_offset (data : option Reply) (b : Bot) :
  well_ordered data = true ->
  fetched_at (_update_id b) data = true ->
  result_of (_process_updates' data b) = inr tt ->
  let after := _update_id (state_of (_process_updates' data b)) in
  match batch_max (data_batch data) with
  | None => after = _update_id b
  | Some m => after = m + 1
  end.
Proof.
  intros Hw Hf Hok. cbn zeta.
  pose proof (process_updates_offset_max data b Hw Hok) as H. cbn zeta in H.
  destruct data as [d|]; cbn [data_batch] in *; [|exact H].
  destruct (batch_max (result d)) as [m|] eqn:Hm; [|exact H].
  destruct H as [_ H]. apply H.
  exact (batch_max_fetched (_update_id b) (result d) m Hm Hf).
Qed.

(** ** Dispatch on a bot that does not run *)

(** C3: whatever the update, [process_update] on a bot whose [_closed] is
    [True] fails with the not-initialized error, and nothing is handed to
    the scheduler: the bot is as before and no event is recorded. *)
Theorem process_update_not_running (raw : RawUpdate) (b : Bot) :
  _closed b = true ->
  process_update' raw b = (inl NotInitializedError, b, []).
Proof. apply process_update_closed. Qed.

(** ** The tracker while a batch is processed *)

Lemma batch_snapshots_spec batch : forall b s st,
  _closed b = false -> _scheduler b = Some s ->
  st ∈ batch_snapshots' batch b ->
  exists n : nat,
    (1 <= n <= length batch)%nat
    /\ sched_jobs st = jobs s ++ map (dispatch_job' b) (take n batch)
    /\ (_update_id st = max_update_id (_update_id b) (take n batch)
        \/ _update_id st = max_update_id (_update_id b) (take (n - 1) batch)).
Proof.
  induction batch as [|raw rest IH]; intros b s st Hc Hs Hin.
  - cbn in Hin. apply elem_of_nil in Hin. destruct Hin.
  - cbn [batch_snapshots] in Hin.
    rewrite (process_update_running b s raw Hc Hs) in Hin.
    apply elem_of_cons in Hin as [-> | Hin]; [|apply elem_of_cons in Hin as [-> | Hin]].
    + exists 1%nat. cbn. repeat split; [lia | lia | right; reflexivity].
    + exists 1%nat. cbn. repeat split; [lia | lia | left; reflexivity].
    + apply (IH _ {| jobs := jobs s ++ [dispatch_job' b raw] |}) in Hin;
        [| exact Hc | reflexivity].
      destruct Hin as (n & Hn & Hjobs & Hid).
      exists (S n). split; [cbn; lia|]. split.
      * rewrite Hjobs. cbn. rewrite <- app_assoc. reflexivity.
      * destruct n as [|n]; [lia|].
        cbn [Nat.sub] in *. rewrite Nat.sub_0_r in *.
        destruct Hid as [Hid | Hid]; [left | right]; rewrite Hid; reflexivity.
Qed.

(** C9, as the code has it: while a batch is processed the tracker is
    raised, after each submission, to the largest identifier submitted so
    far, so it can change before the whole batch is submitted; at every
    moment it is the running maximum over the updates submitted so far, or
    over all of them but the one submitted last; the final increment by one
    is seen only once the full batch has been submitted. *)
Theorem tracker_during_batch (batch : list RawUpdate) (b : Bot) (s : Scheduler)
    (st : Bot) :
  _closed b = false -> _scheduler b = Some s ->
  st ∈ process_updates_snapshots' batch b ->
  exists n : nat,
    (n <= length batch)%nat
    /\ sched_jobs st = sched_jobs b ++ map (dispatch_job' b) (take n batch)
    /\ (_update_id st = max_update_id (_update_id b) (take n batch)
        \/ _update_id st = max_update_id (_update_id b) (take (n - 1) batch)
        \/ (n = length batch
            /\ _update_id st = max_update_id (_update_id b) batch + 1)).
Proof.
  intros Hc Hs Hin. unfold process_updates_snapshots in Hin.
  assert (Hjb : sched_jobs b = jobs s) by (unfold sched_jobs; rewrite Hs; reflexivity).
  rewrite Hjb.
  apply elem_of_app in Hin as [Hin | Hin].
  - destruct (batch_snapshots_spec batch b s st Hc Hs Hin) as (n & Hn & Hjobs & Hid).
    exists n. split; [lia|]. split; [exact Hjobs|].
    destruct Hid as [Hid | Hid]; [left | right; left]; exact Hid.
  - apply list_elem_of_singleton in Hin. subst st.
    rewrite (process_updates_running batch b s Hc Hs).
    exists (length batch). split; [lia|]. rewrite firstn_all.
    split; [reflexivity|].
    cbn [state_of fst snd _update_id set_update_id].
    destruct batch as [|raw rest].
    + left. cbn. lia.
    + right; right. split; reflexivity.
Qed.


(** ** The poller *)

Lemma suspended_eq flip b : suspended flip b = (inr tt, flip_if flip b, []).
Proof. destruct flip; reflexivity. Qed.

Lemma sleep_eq t q b : sleep t q b = (inr tt, flip_if (close_during_sleep t) b, [EvSleep q]).
Proof. unfold sleep, bind, emit. rewrite suspended_eq. reflexivity. Qed.

Lemma client_get_updates_eq t offset b tok :
  client b = Some tok ->
  client_get_updates t offset b
  = (fetched t, flip_if (close_during_fetch t) b, [EvFetch offset]).
Proof.
  intros Hcl. unfold client_get_updates, bind at 1, get. rewrite Hcl.
  unfold bind, emit. rewrite suspended_eq.
  destruct (fetched t); reflexivity.
Qed.

Lemma bot_inv_flip flip b : bot_inv b -> bot_inv (flip_if flip b).
Proof.
  intros Hinv. destruct flip; [|exact Hinv]. intros H. discriminate H.
Qed.

(** The body of the [try] on a reply of the client. *)
Lemma poll_once_reply interval t b tok data :
  client b = Some tok -> fetched t = inr data ->
  poll_once' interval t b
  = let b1 := flip_if (close_during_fetch t) b in
    match _process_updates' data b1 with
    | (inl e, b2, t2) =>
        match poll_except t e with
        | Some h => (result_of (h b2), state_of (h b2),
                     (EvFetch (_update_id b) :: t2) ++ trace_of (h b2))
        | None => (inl e, b2, EvFetch (_update_id b) :: t2)
        end
    | (inr _, b2, t2) =>
        (inr tt, flip_if (close_during_sleep t) b2,
         EvFetch (_update_id b) :: t2 ++ [EvSleep interval])
    end.
Proof.
  intros Hcl Hf. unfold poll_once, try_except, bind at 1, get.
  unfold bind at 1. rewrite (client_get_updates_eq t _ b tok Hcl), Hf.
  unfold bind at 1.
  destruct (_process_updates' data _) as [[[e|[]] b2] t2]; cbn zeta.
  - destruct (poll_except t e) as [h|]; [|reflexivity].
    destruct (h b2) as [[r b3] t3]. reflexivity.
  - rewrite sleep_eq. reflexivity.
Qed.

(** The [except] clauses on an error of the client. *)
Lemma poll_once_error interval t b tok e :
  client b = Some tok -> fetched t = inl e -> fetch_error_listed e = true ->
  poll_once' interval t b
  = (inr tt,
     if is_asyncio_TimeoutError e
     then flip_if (close_during_fetch t) b
     else flip_if (close_during_sleep t) (flip_if (close_during_fetch t) b),
     EvFetch (_update_id b)
     :: match e with
        | TelegramApiError status =>
            [EvProcessError status; EvSleep (if 500 <=? status then 30%Q else 10%Q)]
        | _ =>
            if is_asyncio_TimeoutError e then [EvLog e] else [EvLog e; EvSleep 10%Q]
        end).
Proof.
  intros Hcl Hf Hl. unfold poll_once, try_except, bind at 1, get.
  unfold bind at 1. rewrite (client_get_updates_eq t _ b tok Hcl), Hf.
  destruct e; try discriminate Hl;
    cbn [poll_except is_asyncio_TimeoutError is_aiohttp_ClientError].
  - unfold bind, emit. destruct (500 <=? status); rewrite sleep_eq; reflexivity.
  - reflexivity.
  - unfold bind, emit. rewrite sleep_eq. reflexivity.
  - reflexivity.
Qed.

(** What one pass through the loop can do on a running bot. *)
Lemma poll_once_cases interval t b tok :
  _closed b = false -> bot_inv b -> client b = Some tok -> turn_listed t = true ->
  let o := poll_once' interval t b in
  (result_of o = inr tt /\ bot_inv (state_of o) /\ client (state_of o) = Some tok
   /\ (never_closes t = true -> _closed (state_of o) = false))
  \/ (result_of o = inl NotInitializedError /\ _closed (state_of o) = true
      /\ close_during_fetch t = true
      /\ exists d, fetched t = inr (Some d) /\ result d <> []).
Proof.
  intros Hc Hinv Hcl Hl. destruct (Hinv Hc) as [s Hs]. cbn zeta.
  unfold turn_listed in Hl. unfold never_closes.
  destruct (fetched t) as [e | data] eqn:Hf.
  - left. rewrite (poll_once_error interval t b tok e Hcl Hf Hl).
    cbn [result_of state_of fst snd]. split; [reflexivity|].
    destruct (close_during_fetch t), (close_during_sleep t), e;
      try discriminate Hl; cbn;
      (split; [first [exact Hinv | intros H; discriminate H] |
               split; [exact Hcl | first [intros _; exact Hc | intros H; discriminate H]]]).
  - rewrite (poll_once_reply interval t b tok data Hcl Hf). cbn zeta.
    destruct (close_during_fetch t) eqn:Hcf; cbn [flip_if].
    + destruct data as [[o [|raw rest]]|].
      * left. cbn.
        repeat split;
          [ apply bot_inv_flip; intros H; discriminate H
          | destruct (close_during_sleep t); exact Hcl
          | intros H; discriminate H ].
      * right.
        change (_process_updates' (Some {| ok := o; result := raw :: rest |}))
          with (_process_updates' (reply_of (raw :: rest))).
        unfold _process_updates, reply_of. cbn [result].
        rewrite (bind_raise _ _ _ _ _ _
                   (for_each_closed raw rest (set_closed true b) eq_refl)).
        cbn. repeat split. eexists. split; [reflexivity | discriminate].
      * left. cbn.
        repeat split;
          [ apply bot_inv_flip; intros H; discriminate H
          | destruct (close_during_sleep t); exact Hcl
          | intros H; discriminate H ].
    + left. destruct data as [[o batch]|].
      * change (_process_updates' (Some {| ok := o; result := batch |}))
          with (_process_updates' (reply_of batch)).
        rewrite (process_updates_running batch b s Hc Hs).
        cbn [result_of state_of fst snd]. split; [reflexivity|].
        split; [apply bot_inv_flip; intros _; eexists; reflexivity|].
        split; [destruct (close_during_sleep t); exact Hcl|].
        intros H. cbn in H. apply negb_true_iff in H. rewrite H. exact Hc.
      * cbn. split; [reflexivity|].
        split; [apply bot_inv_flip, Hinv|].
        split; [destruct (close_during_sleep t); exact Hcl|].
        intros H. apply negb_true_iff in H. rewrite H. exact Hc.
Qed.

Lemma get_updates_closed interval turns b :
  _closed b = true -> _get_updates' interval turns b = (inr Stopped, b, []).
Proof.
  intros Hc. destruct turns; cbn [_get_updates]; unfold bind, get;
    rewrite Hc; reflexivity.
Qed.

Lemma get_updates_step interval t rest b :
  _closed b = false ->
  _get_updates' interval (t :: rest) b
  = bind (poll_once' interval t) (fun _ => _get_updates' interval rest) b.
Proof.
  intros Hc. cbn [_get_updates]. unfold bind at 1, get. rewrite Hc.
  destruct (bind _ _ b) as [[r b1] t1]. reflexivity.
Qed.

(** The ways out of the loop. *)
Lemma get_updates_exit interval turns : forall b tok,
  bot_inv b -> client b = Some tok -> forallb turn_listed turns = true ->
  let o := _get_updates' interval turns b in
  match result_of o with
  | inr Stopped => _closed (state_of o) = true
  | inr StillPolling => _closed (state_of o) = false
  | inl e =>
      e = NotInitializedError /\ _closed (state_of o) = true
      /\ exists t d, t ∈ turns /\ close_during_fetch t = true
                     /\ fetched t = inr (Some d) /\ result d <> []
  end.
Proof.
  induction turns as [|t rest IH]; intros b tok Hinv Hcl Hl; cbn zeta.
  - destruct (_closed b) eqn:Hc.
    + rewrite get_updates_closed by exact Hc. exact Hc.
    + cbn. unfold bind, get. rewrite Hc. exact Hc.
  - destruct (_closed b) eqn:Hc.
    + rewrite get_updates_closed by exact Hc. exact Hc.
    + cbn [forallb] in Hl. apply andb_true_iff in Hl as [Hlt Hlr].
      rewrite (get_updates_step interval t rest b Hc).
      destruct (poll_once_cases interval t b tok Hc Hinv Hcl Hlt)
        as [(Hr & Hinv1 & Hcl1 & _) | (Hr & Hc1 & Hcf & d & Hd & Hne)].
      * destruct (poll_once' interval t b) as [[r b1] t1] eqn:Hp.
        cbn in Hr, Hinv1, Hcl1. subst r.
        rewrite (bind_ok _ _ _ _ _ _ Hp). cbn [result_of state_of fst snd].
        specialize (IH b1 tok Hinv1 Hcl1 Hlr). cbn zeta in IH.
        unfold result_of, state_of in IH.
        destruct (_get_updates' interval rest b1) as [[[e|[|]] b2] t2];
          cbn in IH |- *; try exact IH.
        destruct IH as (He & Hc2 & t' & d' & Hin & H1 & H2 & H3).
        split; [exact He|]. split; [exact Hc2|].
        exists t', d'. split; [apply elem_of_cons; right; exact Hin|]. auto.
      * destruct (poll_once' interval t b) as [[r b1] t1] eqn:Hp.
        cbn in Hr, Hc1. subst r.
        rewrite (bind_raise _ _ _ _ _ _ Hp). cbn.
        split; [reflexivity|]. split; [exact Hc1|].
        exists t, d. split; [apply elem_of_cons; left; reflexivity|]. auto.
Qed.

(** When nobody closes the bot, the loop outlives every script. *)
Lemma get_updates_alive interval turns : forall b tok,
  _closed b = false -> bot_inv b -> client b = Some tok ->
  forallb turn_listed turns = true -> forallb never_closes turns = true ->
  result_of (_get_updates' interval turns b) = inr StillPolling.
Proof.
  induction turns as [|t rest IH]; intros b tok Hc Hinv Hcl Hl Hn.
  - cbn. unfold bind, get. rewrite Hc. reflexivity.
  - cbn [forallb] in Hl, Hn.
    apply andb_true_iff in Hl as [Hlt Hlr]. apply andb_true_iff in Hn as [Hnt Hnr].
    rewrite (get_updates_step interval t rest b Hc).
    destruct (poll_once_cases interval t b tok Hc Hinv Hcl Hlt)
      as [(Hr & Hinv1 & Hcl1 & Hc1) | (_ & _ & Hcf & _)].
    + destruct (poll_once' interval t b) as [[r b1] t1] eqn:Hp.
      cbn in Hr, Hinv1, Hcl1, Hc1. subst r.
      rewrite (bind_ok _ _ _ _ _ _ Hp). cbn [result_of fst snd].
      exact (IH b1 tok (Hc1 Hnt) Hinv1 Hcl1 Hlr Hnr).
    + unfold never_closes in Hnt. rewrite Hcf in Hnt. discriminate Hnt.
Qed.

(** After an API error, and if nobody closes the bot meanwhile, the loop
    fetches again from the very state in which it failed. *)
Lemma retry_after_api_error interval t rest b tok status :
  _closed b = false -> client b = Some tok ->
  fetched t = inl (TelegramApiError status) -> never_closes t = true ->
  _get_updates' interval (t :: rest) b
  = (result_of (_get_updates' interval rest b),
     state_of (_get_updates' interval rest b),
     [EvFetch (_update_id b); EvProcessError status;
      EvSleep (if 500 <=? status then 30%Q else 10%Q)]
     ++ trace_of (_get_updates' interval rest b)).
Proof.
  intros Hc Hcl Hf Hn. unfold never_closes in Hn.
  apply andb_true_iff in Hn as [Hn1 Hn2]. apply negb_true_iff in Hn1, Hn2.
  rewrite (get_updates_step interval t rest b Hc).
  pose proof (poll_once_error interval t b tok _ Hcl Hf eq_refl) as Hp.
  rewrite Hn1, Hn2 in Hp. cbn [flip_if] in Hp.
  rewrite (bind_ok _ _ _ _ _ _ Hp). reflexivity.
Qed.

Lemma batch_snapshots_cons raw rest b s :
  _closed b = false -> _scheduler b = Some s ->
  batch_snapshots' (raw :: rest) b
  = set_scheduler (Some {| jobs := jobs s ++ [dispatch_job' b raw] |}) b
    :: after_batch' b s [raw]
    :: batch_snapshots' rest (after_batch' b s [raw]).
Proof.
  intros Hc Hs.
  change (batch_snapshots' (raw :: rest) b)
    with (match process_update' raw b with
          | (inl _, b1, _) => [b1]
          | (inr _, b1, _) =>
              b1 :: set_update_id (Z.max (update_id raw) (_update_id b1)) b1
              :: batch_snapshots' rest
                   (set_update_id (Z.max (update_id raw) (_update_id b1)) b1)
          end).
  rewrite (process_update_running b s raw Hc Hs). reflexivity.
Qed.

(** The last snapshot of the [for] loop is the state in which the loop
    ends. *)
Lemma batch_snapshots_last batch : forall b s,
  _closed b = false -> _scheduler b = Some s ->
  last (batch_snapshots' batch b)
  = match batch with
    | [] => None
    | _ :: _ => Some (state_of (for_each batch process_one' b))
    end.
Proof.
  induction batch as [|raw rest IH]; intros b s Hc Hs; [reflexivity|].
  rewrite (for_each_running (raw :: rest) b s Hc Hs).
  rewrite (batch_snapshots_cons raw rest b s Hc Hs), !last_cons.
  rewrite (IH (after_batch' b s [raw])
             {| jobs := jobs s ++ [dispatch_job' b raw] |} Hc eq_refl).
  destruct rest as [|r2 rest]; [reflexivity|].
  rewrite (for_each_running (r2 :: rest) (after_batch' b s [raw])
             {| jobs := jobs s ++ [dispatch_job' b raw] |} Hc eq_refl).
  cbn [state_of fst snd]. rewrite after_batch_cons. reflexivity.
Qed.

Lemma poll_once_no_client interval t b :
  client b = None ->
  poll_once' interval t b
  = (inl (AttributeError "'NoneType' object has no attribute 'get_updates'"), b, []).
Proof.
  intros Hcl. unfold poll_once, try_except, bind at 1, get.
  unfold bind at 1. unfold client_get_updates, bind at 1, get. rewrite Hcl.
  reflexivity.
Qed.

Lemma poll_once_unlisted interval t b tok e :
  client b = Some tok -> fetched t = inl e -> fetch_error_listed e = false ->
  poll_once' interval t b
  = (inl e, flip_if (close_during_fetch t) b, [EvFetch (_update_id b)]).
Proof.
  intros Hcl Hf Hl. unfold poll_once, try_except, bind at 1, get.
  unfold bind at 1. rewrite (client_get_updates_eq t _ b tok Hcl), Hf.
  destruct e; try discriminate Hl; reflexivity.
Qed.

Lemma get_updates_unfold interval t rest b :
  _closed b = false ->
  _get_updates' interval (t :: rest) b
  = match poll_once' interval t b with
    | (inl e, b1, t1) => (inl e, b1, t1)
    | (inr _, b1, t1) =>
        (result_of (_get_updates' interval rest b1),
         state_of (_get_updates' interval rest b1),
         t1 ++ trace_of (_get_updates' interval rest b1))
    end.
Proof.
  intros Hc. rewrite (get_updates_step interval t rest b Hc).
  destruct (poll_once' interval t b) as [[[e|[]] b1] t1] eqn:Hp.
  - rewrite (bind_raise _ _ _ _ _ _ Hp). reflexivity.
  - rewrite (bind_ok _ _ _ _ _ _ Hp). reflexivity.
Qed.

(** C7: in an iteration of the poller whose fetch raises the API error with
    [status], the error is handed to [client.process_error], then the
    poller sleeps 30 when [status >= 500] and 10 otherwise; the iteration
    ends normally, so the loop goes on to the next fetch, and the tracker
    is as it was. *)
Theorem poll_once_api_error (interval : Q) (t : Turn) (b : Bot) (tok : string)
    (status : Z) :
  client b = Some tok ->
  fetched t = inl (TelegramApiError status) ->
  let o := poll_once' interval t b in
  result_of o = inr tt
  /\ _update_id (state_of o) = _update_id b
  /\ trace_of o = [EvFetch (_update_id b); EvProcessError status;
                   EvSleep (if 500 <=? status then 30%Q else 10%Q)].
Proof.
  intros Hcl Hf. cbn zeta.
  rewrite (poll_once_error interval t b tok _ Hcl Hf eq_refl).
  split; [reflexivity|]. split; [|reflexivity].
  cbn [state_of fst snd].
  destruct (close_during_sleep t), (close_during_fetch t); reflexivity.
Qed.

(** C8, as the code has it: the loop tests the lifecycle state at the top
    of each iteration and stops normally as soon as it finds the bot
    closed.  An API error, a timeout or a client error of the fetch never
    ends it.  So for a bot that has its client and, while it runs, its
    scheduler, and a fetch that raises nothing else: the loop is left only
    after the bot has been closed, and as long as nobody closes the bot it
    outlives every script of the environment.  An exception of the fetch
    that no [except] clause names is not caught: the loop is left through
    it. *)
Theorem poller_ends_only_closed (interval : Q) (turns : list Turn) (b : Bot)
    (tok : string) :
  bot_inv b -> client b = Some tok -> forallb turn_listed turns = true ->
  let o := _get_updates' interval turns b in
  (_closed b = true -> o = (inr Stopped, b, []))
  /\ match result_of o with
     | inr Stopped => _closed (state_of o) = true
     | inr StillPolling => _closed (state_of o) = false
     | inl e =>
         e = NotInitializedError /\ _closed (state_of o) = true
         /\ exists t d, t ∈ turns /\ close_during_fetch t = true
                        /\ fetched t = inr (Some d) /\ result d <> []
     end
  /\ (_closed b = false -> forallb never_closes turns = true ->
      result_of o = inr StillPolling)
  /\ (forall t rest e,
        _closed b = false -> fetched t = inl e -> fetch_error_listed e = false ->
        result_of (_get_updates' interval (t :: rest) b) = inl e).
Proof.
  intros Hinv Hcl Hl. cbn zeta. split; [|split; [|split]].
  - intros Hc. exact (get_updates_closed interval turns b Hc).
  - exact (get_updates_exit interval turns b tok Hinv Hcl Hl).
  - intros Hc Hn. exact (get_updates_alive interval turns b tok Hc Hinv Hcl Hl Hn).
  - intros t rest e Hc Hf He.
    rewrite (get_updates_unfold interval t rest b Hc).
    rewrite (poll_once_unlisted interval t b tok e Hcl Hf He). reflexivity.
Qed.

(** ** Further properties of the batch *)

(** X1: The batch goes to the scheduler in the order received, one job per
    update, behind the jobs that the scheduler already holds; the trace
    shows the same order. *)
Theorem process_updates_order (data : option Reply) (b : Bot) (s : Scheduler) :
  _closed b = false -> _scheduler b = Some s ->
  let o := _process_updates' data b in
  result_of o = inr tt
  /\ sched_jobs (state_of o) = jobs s ++ map (dispatch_job' b) (data_batch data)
  /\ trace_of o = map EvSpawn (map (dispatch_job' b) (data_batch data))
  /\ handlers (state_of o) = handlers b
  /\ _closed (state_of o) = false.
Proof.
  intros Hc Hs. cbn zeta. destruct data as [[o batch]|].
  - change (_process_updates' (Some {| ok := o; result := batch |}) b)
      with (_process_updates' (reply_of batch) b).
    rewrite (process_updates_running batch b s Hc Hs).
    cbn [data_batch result]. repeat split. exact Hc.
  - cbn. unfold sched_jobs. rewrite Hs, app_nil_r. repeat split. exact Hc.
Qed.

Lemma process_updates_on_closed data b :
  _closed b = true ->
  _process_updates' data b
  = match data_batch data with
    | [] => (inr tt, b, [])
    | _ :: _ => (inl NotInitializedError, b, [])
    end.
Proof.
  intros Hc. destruct data as [[o [|raw rest]]|]; cbn [data_batch result].
  - cbn. rewrite Z.add_0_r, set_update_id_same. reflexivity.
  - change (_process_updates' (Some {| ok := o; result := raw :: rest |}) b)
      with (_process_updates' (reply_of (raw :: rest)) b).
    unfold _process_updates, reply_of. cbn [result].
    apply bind_raise, for_each_closed, Hc.
  - reflexivity.
Qed.

(** X2: On a bot that does not run, a batch that holds an update is refused at
    its first update: the not-initialized error, nothing submitted, tracker
    untouched.  An empty batch and absent data go through even then, and
    change nothing. *)
Theorem process_updates_closed (data : option Reply) (b : Bot) :
  _closed b = true ->
  _process_updates' data b
  = match data_batch data with
    | [] => (inr tt, b, [])
    | _ :: _ => (inl NotInitializedError, b, [])
    end.
Proof. apply process_updates_on_closed. Qed.

Lemma process_updates_no_scheduler raw rest o b :
  _closed b = false -> _scheduler b = None ->
  exists e, _process_updates' (Some {| ok := o; result := raw :: rest |}) b
            = (inl e, b, []).
Proof.
  intros Hc Hs. destruct (process_update_no_scheduler b raw Hc Hs) as [e He].
  exists e. unfold _process_updates. cbn [result for_each]. unfold process_one at 1.
  apply bind_raise, bind_raise, bind_raise, He.
Qed.

(** X3: Whatever the data and the bot, and whether the call returns or raises,
    [_process_updates] never moves the tracker back. *)
Theorem process_updates_never_back (data : option Reply) (b : Bot) :
  _update_id b <= _update_id (state_of (_process_updates' data b)).
Proof.
  destruct (_closed b) eqn:Hc.
  - rewrite (process_updates_on_closed data b Hc).
    destruct (data_batch data); cbn; lia.
  - destruct data as [[o [|raw rest]]|]; [cbn; lia | | cbn; lia].
    destruct (_scheduler b) as [s|] eqn:Hs.
    + change (_process_updates' (Some {| ok := o; result := raw :: rest |}) b)
        with (_process_updates' (reply_of (raw :: rest)) b).
      rewrite (process_updates_running (raw :: rest) b s Hc Hs).
      cbn [state_of fst snd _update_id set_update_id].
      pose proof (max_update_id_floor (_update_id b) (raw :: rest)). lia.
    + destruct (process_updates_no_scheduler raw rest o b Hc Hs) as [e He].
      rewrite He. cbn. lia.
Qed.

(** X4: After a batch has gone through, the tracker is above the identifier of
    every update of the batch: the next fetch does not ask for any of them
    again. *)
Theorem process_updates_above (data : option Reply) (b : Bot) (raw : RawUpdate) :
  result_of (_process_updates' data b) = inr tt ->
  raw ∈ data_batch data ->
  update_id raw < _update_id (state_of (_process_updates' data b)).
Proof.
  intros Hok Hin. destruct data as [[o batch]|]; cbn [data_batch result] in Hin.
  - change (_process_updates' (Some {| ok := o; result := batch |}) b)
      with (_process_updates' (reply_of batch) b) in *.
    destruct batch as [|r rest]; [apply elem_of_nil in Hin; destruct Hin|].
    destruct (process_updates_success r rest b Hok) as [Hc [s Hs]].
    rewrite (process_updates_running (r :: rest) b s Hc Hs).
    cbn [state_of fst snd _update_id set_update_id].
    pose proof (max_update_id_ge (_update_id b) (r :: rest) raw Hin). lia.
  - apply elem_of_nil in Hin. destruct Hin.
Qed.

(** The invariant survives [_process_updates], failed or not. *)
Lemma process_updates_inv data b :
  bot_inv b -> bot_inv (state_of (_process_updates' data b)).
Proof.
  intros Hinv. destruct (_closed b) eqn:Hc.
  - rewrite (process_updates_on_closed data b Hc).
    destruct (data_batch data); exact Hinv.
  - destruct (Hinv Hc) as [s Hs].
    destruct data as [[o batch]|]; [|exact Hinv].
    change (_process_updates' (Some {| ok := o; result := batch |}) b)
      with (_process_updates' (reply_of batch) b).
    rewrite (process_updates_running batch b s Hc Hs).
    intros _. eexists. reflexivity.
Qed.

(** ** Further properties of the poller *)

Lemma process_updates_cases data b :
  exists r b1 js,
    _process_updates' data b = (r, b1, map EvSpawn js)
    /\ client b1 = client b
    /\ (bot_inv b -> bot_inv b1)
    /\ _update_id b <= _update_id b1.
Proof.
  destruct (_closed b) eqn:Hc.
  - rewrite (process_updates_on_closed data b Hc).
    destruct (data_batch data); eexists _, b, []; repeat split; auto; lia.
  - destruct data as [[o batch]|].
    + destruct (_scheduler b) as [s|] eqn:Hs.
      * change (_process_updates' (Some {| ok := o; result := batch |}) b)
          with (_process_updates' (reply_of batch) b).
        rewrite (process_updates_running batch b s Hc Hs).
        eexists _, _, _. split; [reflexivity|]. split; [reflexivity|].
        split; [intros _ _; eexists; reflexivity|].
        cbn [_update_id set_update_id].
        pose proof (max_update_id_floor (_update_id b) batch).
        destruct batch; lia.
      * destruct batch as [|raw rest].
        -- eexists _, _, []. cbn.
           split; [reflexivity|]. split; [reflexivity|].
           split; [intros Hinv _; destruct (Hinv Hc) as [s' Hs']; congruence|].
           cbn [_update_id set_update_id]. lia.
        -- destruct (process_updates_no_scheduler raw rest o b Hc Hs) as [e He].
           rewrite He. eexists _, b, []. repeat split; auto; lia.
    + eexists _, b, []. repeat split; auto; lia.
Qed.

Lemma poll_except_state t e h b :
  poll_except t e = Some h ->
  exists f tr, h b = (inr tt, flip_if f b, tr) /\ fetch_offsets tr = [].
Proof.
  destruct e;
    cbn [poll_except is_asyncio_TimeoutError is_aiohttp_ClientError];
    intros H; try discriminate H; injection H as <-.
  - exists (close_during_sleep t). unfold bind, emit.
    destruct (500 <=? status); rewrite sleep_eq; eexists; split; reflexivity.
  - exists false. eexists. split; reflexivity.
  - exists (close_during_sleep t). unfold bind, emit. rewrite sleep_eq.
    eexists; split; reflexivity.
  - exists false. eexists. split; reflexivity.
Qed.

Lemma flip_if_facts f b :
  client (flip_if f b) = client b
  /\ _update_id (flip_if f b) = _update_id b
  /\ (bot_inv b -> bot_inv (flip_if f b)).
Proof. destruct f; repeat split; auto. intros _ H. discriminate H. Qed.

(** What one pass through the loop does in every case. *)
Lemma poll_once_facts interval t b :
  let o := poll_once' interval t b in
  client (state_of o) = client b
  /\ (bot_inv b -> bot_inv (state_of o))
  /\ _update_id b <= _update_id (state_of o)
  /\ (fetch_offsets (trace_of o) = []
      \/ fetch_offsets (trace_of o) = [_update_id b]).
Proof.
  cbn zeta. destruct (client b) as [tok|] eqn:Hcl.
  2:{ rewrite (poll_once_no_client interval t b Hcl). cbn.
      repeat split; auto; lia. }
  destruct (fetched t) as [e | data] eqn:Hf.
  - destruct (fetch_error_listed e) eqn:Hl.
    + rewrite (poll_once_error interval t b tok e Hcl Hf Hl).
      cbn [state_of trace_of fst snd].
      destruct (flip_if_facts (close_during_fetch t) b) as (H1 & H2 & H3).
      destruct (flip_if_facts (close_during_sleep t)
                  (flip_if (close_during_fetch t) b)) as (H4 & H5 & H6).
      destruct e; try discriminate Hl; cbn [is_asyncio_TimeoutError];
        (split; [congruence|]; split; [auto|]; split; [lia|]; right; reflexivity).
    + rewrite (poll_once_unlisted interval t b tok e Hcl Hf Hl).
      cbn [state_of trace_of fst snd].
      destruct (flip_if_facts (close_during_fetch t) b) as (H1 & H2 & H3).
      split; [congruence|]. split; [auto|]. split; [lia|]. right; reflexivity.
  - rewrite (poll_once_reply interval t b tok data Hcl Hf). cbn zeta.
    destruct (flip_if_facts (close_during_fetch t) b) as (H1 & H2 & H3).
    destruct (process_updates_cases data (flip_if (close_during_fetch t) b))
      as (r & b1 & js & Hp & Hc1 & Hi1 & Hu1).
    rewrite Hp. destruct r as [e|[]].
    + destruct (poll_except t e) as [h|] eqn:Hh.
      * destruct (poll_except_state t e h b1 Hh) as (f & tr & Hh1 & Htr).
        rewrite Hh1. cbn [result_of state_of trace_of fst snd].
        destruct (flip_if_facts f b1) as (H4 & H5 & H6).
        split; [congruence|]. split; [auto|]. split; [lia|]. right.
        change (EvFetch (_update_id b) :: map EvSpawn js)
          with ([EvFetch (_update_id b)] ++ map EvSpawn js).
        rewrite !fetch_offsets_app, fetch_offsets_spawns, Htr. reflexivity.
      * cbn [state_of trace_of fst snd].
        split; [congruence|]. split; [auto|]. split; [lia|]. right.
        change (EvFetch (_update_id b) :: map EvSpawn js)
          with ([EvFetch (_update_id b)] ++ map EvSpawn js).
        rewrite fetch_offsets_app, fetch_offsets_spawns. reflexivity.
    + cbn [state_of trace_of fst snd].
      destruct (flip_if_facts (close_during_sleep t) b1) as (H4 & H5 & H6).
      split; [congruence|]. split; [auto|]. split; [lia|]. right.
      change (EvFetch (_update_id b) :: map EvSpawn js ++ [EvSleep interval])
        with ([EvFetch (_update_id b)] ++ map EvSpawn js ++ [EvSleep interval]).
      rewrite !fetch_offsets_app, fetch_offsets_spawns. reflexivity.
Qed.

Lemma get_updates_facts interval turns : forall b,
  let o := _get_updates' interval turns b in
  (bot_inv b -> bot_inv (state_of o))
  /\ Forall (fun offset => _update_id b <= offset) (fetch_offsets (trace_of o))
  /\ StronglySorted Z.le (fetch_offsets (trace_of o)).
Proof.
  induction turns as [|t rest IH]; intros b; cbn zeta.
  - destruct (_closed b) eqn:Hc.
    + rewrite get_updates_closed by exact Hc. cbn.
      repeat split; [auto | constructor | constructor].
    + cbn. unfold bind, get. rewrite Hc. cbn.
      repeat split; [auto | constructor | constructor].
  - destruct (_closed b) eqn:Hc.
    + rewrite get_updates_closed by exact Hc. cbn.
      repeat split; [auto | constructor | constructor].
    + rewrite (get_updates_unfold interval t rest b Hc).
      destruct (poll_once_facts interval t b) as (_ & Hi & Hu & Hf).
      destruct (poll_once' interval t b) as [[[e|[]] b1] t1];
        cbn [state_of trace_of fst snd] in *.
      * split; [exact Hi|].
        destruct Hf as [-> | ->]; split;
          repeat constructor; lia.
      * destruct (IH b1) as (Hi1 & Hall & Hsorted). cbn zeta in *.
        split; [auto|]. rewrite fetch_offsets_app.
        assert (Hall' : Forall (fun offset => _update_id b <= offset)
                          (fetch_offsets
                             (trace_of (_get_updates' interval rest b1)))).
        { eapply Forall_impl; [exact Hall|]. cbn. intros; lia. }
        destruct Hf as [-> | ->]; cbn [app].
        -- split; [exact Hall' | exact Hsorted].
        -- split; [constructor; [lia | exact Hall']|].
           constructor; [exact Hsorted | exact Hall'].
Qed.

Lemma process_updates_ok_running data b s :
  _closed b = false -> _scheduler b = Some s ->
  _process_updates' data b
  = (inr tt, state_of (_process_updates' data b),
     map EvSpawn (map (dispatch_job' b) (data_batch data))).
Proof.
  intros Hc Hs. destruct data as [[o batch]|]; [|reflexivity].
  change (_process_updates' (Some {| ok := o; result := batch |}) b)
    with (_process_updates' (reply_of batch) b).
  rewrite (process_updates_running batch b s Hc Hs). reflexivity.
Qed.

Lemma poll_once_reply_running interval t b s tok data :
  _closed b = false -> _scheduler b = Some s -> client b = Some tok ->
  fetched t = inr data -> close_during_fetch t = false ->
  poll_once' interval t b
  = (inr tt,
     flip_if (close_during_sleep t) (state_of (_process_updates' data b)),
     EvFetch (_update_id b)
     :: map EvSpawn (map (dispatch_job' b) (data_batch data))
     ++ [EvSleep interval]).
Proof.
  intros Hc Hs Hcl Hf Hcf.
  rewrite (poll_once_reply interval t b tok data Hcl Hf), Hcf. cbn [flip_if].
  cbn zeta. rewrite (process_updates_ok_running data b s Hc Hs). reflexivity.
Qed.

(** X5: A timeout of the fetch is logged and nothing else: the iteration ends
    without any sleep, so the loop asks again at once, from the same
    tracker. *)
Theorem poll_once_timeout (interval : Q) (t : Turn) (b : Bot) (tok : string) :
  client b = Some tok ->
  fetched t = inl TimeoutError ->
  let o := poll_once' interval t b in
  result_of o = inr tt
  /\ trace_of o = [EvFetch (_update_id b); EvLog TimeoutError]
  /\ _update_id (state_of o) = _update_id b
  /\ sched_jobs (state_of o) = sched_jobs b.
Proof.
  intros Hcl Hf. cbn zeta.
  rewrite (poll_once_error interval t b tok _ Hcl Hf eq_refl).
  cbn [result_of state_of trace_of fst snd].
  destruct (close_during_fetch t); repeat split.
Qed.

(** X6: An [aiohttp.ClientError] of the fetch is logged and the iteration
    ends normally; tracker and scheduler are as they were.  The poller
    sleeps 10 after it, unless the exception is an [asyncio.TimeoutError]
    as well (aiohttp's [ServerTimeoutError]): the clause for timeouts comes
    first in the source and catches it, and that clause does not sleep. *)
Theorem poll_once_client_error (interval : Q) (t : Turn) (b : Bot) (tok : string)
    (e : exn) :
  client b = Some tok ->
  fetched t = inl e ->
  is_aiohttp_ClientError e = true ->
  let o := poll_once' interval t b in
  result_of o = inr tt
  /\ trace_of o
     = (if is_asyncio_TimeoutError e
        then [EvFetch (_update_id b); EvLog e]
        else [EvFetch (_update_id b); EvLog e; EvSleep 10%Q])
  /\ _update_id (state_of o) = _update_id b
  /\ sched_jobs (state_of o) = sched_jobs b.
Proof.
  intros Hcl Hf He. cbn zeta.
  assert (Hl : fetch_error_listed e = true) by (destruct e; try discriminate He; reflexivity).
  rewrite (poll_once_error interval t b tok _ Hcl Hf Hl).
  cbn [result_of state_of trace_of fst snd].
  destruct e; try discriminate He; cbn [is_asyncio_TimeoutError];
    destruct (close_during_fetch t), (close_during_sleep t); repeat split.
Qed.

(** X7: An iteration whose fetch succeeds, on a running bot that nobody closes
    during the fetch: the fetch asks for the tracker, every update of the
    reply is submitted in order, then the poller sleeps [interval]; the
    tracker ends one above the largest identifier seen, or where it was if
    the reply brought nothing. *)
Theorem poll_once_success (interval : Q) (t : Turn) (b : Bot) (s : Scheduler)
    (tok : string) (data : option Reply) :
  _closed b = false -> _scheduler b = Some s -> client b = Some tok ->
  fetched t = inr data -> close_during_fetch t = false ->
  let o := poll_once' interval t b in
  result_of o = inr tt
  /\ trace_of o
     = EvFetch (_update_id b)
       :: map EvSpawn (map (dispatch_job' b) (data_batch data))
       ++ [EvSleep interval]
  /\ sched_jobs (state_of o) = jobs s ++ map (dispatch_job' b) (data_batch data)
  /\ _update_id (state_of o)
     = match data_batch data with
       | [] => _update_id b
       | _ :: _ => max_update_id (_update_id b) (data_batch data) + 1
       end.
Proof.
  intros Hc Hs Hcl Hf Hcf. cbn zeta.
  rewrite (poll_once_reply_running interval t b s tok data Hc Hs Hcl Hf Hcf).
  cbn [result_of state_of trace_of fst snd].
  split; [reflexivity|]. split; [reflexivity|].
  assert (Hst : sched_jobs (state_of (_process_updates' data b))
                = jobs s ++ map (dispatch_job' b) (data_batch data)
                /\ _update_id (state_of (_process_updates' data b))
                   = match data_batch data with
                     | [] => _update_id b
                     | _ :: _ => max_update_id (_update_id b) (data_batch data) + 1
                     end).
  { destruct data as [[o batch]|].
    - change (_process_updates' (Some {| ok := o; result := batch |}) b)
        with (_process_updates' (reply_of batch) b).
      rewrite (process_updates_running batch b s Hc Hs).
      cbn [data_batch result state_of fst snd].
      split; [reflexivity|]. destruct batch; cbn; lia.
    - cbn. unfold sched_jobs. rewrite Hs, app_nil_r. split; reflexivity. }
  destruct Hst as [Hj Hu].
  destruct (close_during_sleep t); cbn [flip_if]; split; assumption.
Qed.

(** X8: A bot whose [client] is still [None] (it was initialized without
    [run]): the first pass of the poller raises [AttributeError], no clause
    catches it, and the loop is left before any fetch. *)
Theorem poller_without_client (interval : Q) (t : Turn) (rest : list Turn) (b : Bot) :
  _closed b = false -> client b = None ->
  _get_updates' interval (t :: rest) b
  = (inl (AttributeError "'NoneType' object has no attribute 'get_updates'"), b, []).
Proof.
  intros Hc Hcl. rewrite (get_updates_unfold interval t rest b Hc).
  rewrite (poll_once_no_client interval t b Hcl). reflexivity.
Qed.

(** X9: An exception of the fetch that is none of the three that the loop
    catches ends the poller: the loop is left through it after that single
    fetch, and the rest of the script is never reached. *)
Theorem poller_uncaught_fetch_error (interval : Q) (t : Turn) (rest : list Turn)
    (b : Bot) (tok : string) (e : exn) :
  _closed b = false -> client b = Some tok ->
  fetched t = inl e -> fetch_error_listed e = false ->
  _get_updates' interval (t :: rest) b
  = (inl e, flip_if (close_during_fetch t) b, [EvFetch (_update_id b)]).
Proof.
  intros Hc Hcl Hf Hl. rewrite (get_updates_unfold interval t rest b Hc).
  rewrite (poll_once_unlisted interval t b tok e Hcl Hf Hl). reflexivity.
Qed.

(** X10: When the bot is closed while the poller sleeps, the loop stops at its
    next test: it returns normally after the one fetch of that iteration,
    whatever the environment would have done next.  (An exception that is
    an [asyncio.TimeoutError] has no sleep, hence no such stop.) *)
Theorem poller_stops_after_sleep (interval : Q) (t : Turn) (rest : list Turn)
    (b : Bot) (tok : string) :
  _closed b = false -> bot_inv b -> client b = Some tok ->
  turn_listed t = true ->
  (forall e, fetched t = inl e -> is_asyncio_TimeoutError e = false) ->
  close_during_fetch t = false -> close_during_sleep t = true ->
  let o := _get_updates' interval (t :: rest) b in
  result_of o = inr Stopped
  /\ _closed (state_of o) = true
  /\ fetch_offsets (trace_of o) = [_update_id b]
  /\ o = (inr Stopped, state_of (poll_once' interval t b),
          trace_of (poll_once' interval t b)).
Proof.
  intros Hc Hinv Hcl Hl Hnt Hcf Hcs. cbn zeta.
  destruct (Hinv Hc) as [s Hs].
  rewrite (get_updates_unfold interval t rest b Hc).
  assert (Hp : exists b1 t1,
             poll_once' interval t b = (inr tt, b1, t1)
             /\ _closed b1 = true /\ fetch_offsets t1 = [_update_id b]).
  { unfold turn_listed in Hl. destruct (fetched t) as [e | data] eqn:Hf.
    - rewrite (poll_once_error interval t b tok e Hcl Hf Hl), Hcf, Hcs.
      rewrite (Hnt e eq_refl).
      destruct e; try discriminate Hl; try discriminate (Hnt _ eq_refl);
        eexists _, _; (split; [reflexivity|]); split; reflexivity.
    - rewrite (poll_once_reply_running interval t b s tok data Hc Hs Hcl Hf Hcf).
      rewrite Hcs. eexists _, _. split; [reflexivity|]. split; [reflexivity|].
      change (EvFetch (_update_id b)
              :: map EvSpawn (map (dispatch_job' b) (data_batch data))
              ++ [EvSleep interval])
        with ([EvFetch (_update_id b)]
              ++ map EvSpawn (map (dispatch_job' b) (data_batch data))
              ++ [EvSleep interval]).
      rewrite !fetch_offsets_app, fetch_offsets_spawns. reflexivity. }
  destruct Hp as (b1 & t1 & Hp & Hc1 & Hf1). rewrite Hp.
  rewrite (get_updates_closed interval rest b1 Hc1).
  cbn [result_of state_of trace_of fst snd]. rewrite app_nil_r.
  repeat split; assumption.
Qed.

(** X11: Over a whole run of the poller, whatever the environment does, each
    fetch asks for an offset that is at least the offset of every earlier
    fetch and at least the tracker at which the loop was entered: the
    poller never goes back to older updates. *)
Theorem fetch_offsets_never_back (interval : Q) (turns : list Turn) (b : Bot) :
  let offsets := fetch_offsets (trace_of (_get_updates' interval turns b)) in
  StronglySorted Z.le offsets
  /\ Forall (fun offset => _update_id b <= offset) offsets.
Proof.
  cbn zeta. destruct (get_updates_facts interval turns b) as (_ & Hall & Hsorted).
  split; [exact Hsorted | exact Hall].
Qed.

(** ** The calls in sequence *)

Lemma state_of_then_ret {A} (m : M A) b :
  state_of ((do _ <- m; ret tt) b) = state_of (m b).
Proof.
  unfold bind, ret. destruct (m b) as [[[e|a] b1] t1]; reflexivity.
Qed.

Lemma exec_inv o b :
  start_succeeds o = true ->
  bot_inv b -> bot_inv (state_of (exec recognize_type Handlers_get o b)).
Proof.
  intros Ho Hinv. destruct o; cbn [exec].
  - destruct answer as [e|]; [discriminate Ho|]. apply initialize_inv, Hinv.
  - apply close_inv.
  - rewrite state_of_then_ret. apply add_handler_inv, Hinv.
  - rewrite state_of_then_ret. apply add_handler_inv, Hinv.
  - rewrite state_of_then_ret. unfold decorate_trigger_message, trigger_message.
    destruct (truthy message_type); cbn; exact Hinv.
  - apply process_update_inv, Hinv.
  - apply process_updates_inv, Hinv.
  - rewrite state_of_then_ret.
    destruct (get_updates_facts interval turns b) as (Hi & _ & _). apply Hi, Hinv.
Qed.

Lemma exec_all_inv ops : forall b,
  forallb start_succeeds ops = true ->
  bot_inv b -> bot_inv (exec_all recognize_type Handlers_get ops b).
Proof.
  induction ops as [|o rest IH]; intros b Hops Hinv; [exact Hinv|].
  cbn [forallb] in Hops. apply andb_true_iff in Hops as [Ho Hrest].
  cbn [exec_all]. apply IH; [exact Hrest|]. apply exec_inv; assumption.
Qed.

(** X12: After any sequence of calls on a fresh [Bot], failed ones included,
    in which [aiojobs.create_scheduler] never raised, a running bot has its
    scheduler.  So [process_update] can then fail only with the
    not-initialized error, never on a missing scheduler, and [close] raises
    nothing but what a job it waits for has raised. *)
Theorem scheduler_present_when_running (ops : list op) (raw : RawUpdate)
    (drain : Drain) :
  forallb start_succeeds ops = true ->
  let b := exec_all recognize_type Handlers_get ops Bot_init in
  bot_inv b
  /\ (result_of (process_update' raw b) = inr tt
      \/ process_update' raw b = (inl NotInitializedError, b, []))
  /\ match first_failure drain with
     | None => result_of (close drain b) = inr tt
     | Some (k, e) =>
         result_of (close drain b) = inr tt \/ result_of (close drain b) = inl e
     end.
Proof.
  intros Hops. cbn zeta.
  pose proof (exec_all_inv ops Bot_init Hops Bot_init_inv) as Hinv.
  set (b := exec_all recognize_type Handlers_get ops Bot_init) in *.
  split; [exact Hinv|]. destruct (_closed b) eqn:Hc.
  - split; [right; apply process_update_closed, Hc|].
    rewrite (close_closed drain b Hc).
    destruct (first_failure drain) as [[k e]|]; [left|]; reflexivity.
  - destruct (Hinv Hc) as [s Hs]. split.
    + left. rewrite (process_update_running b s raw Hc Hs). reflexivity.
    + rewrite (close_running drain b s Hc Hs).
      destruct (first_failure drain) as [[k e]|]; [right|]; reflexivity.
Qed.


(** ** Updates pushed from outside *)

Lemma for_each_process_update_running raws : forall b s,
  _closed b = false -> _scheduler b = Some s ->
  for_each raws process_update' b
  = (inr tt,
     set_scheduler (Some {| jobs := jobs s ++ map (dispatch_job' b) raws |}) b,
     map EvSpawn (map (dispatch_job' b) raws)).
Proof.
  induction raws as [|raw rest IH]; intros b s Hc Hs.
  - cbn. unfold ret. rewrite app_nil_r.
    destruct b as [? ? sch ? ? ? ? ?]; cbn in *. subst sch. destruct s. reflexivity.
  - cbn [for_each].
    rewrite (bind_ok _ _ _ _ _ _ (process_update_running b s raw Hc Hs)).
    rewrite (IH (set_scheduler (Some {| jobs := jobs s ++ [dispatch_job' b raw] |}) b)
               {| jobs := jobs s ++ [dispatch_job' b raw] |})
      by first [exact Hc | reflexivity].
    cbn [result_of state_of trace_of fst snd jobs]. cbn [map].
    rewrite <- app_assoc. reflexivity.
Qed.

(** X13: A bot started with [webhook=True] (the scheduler being created)
    has no poller.  Updates handed to
    [process_update] one after the other are all accepted; the scheduler
    then holds their jobs, and nothing else, in the order of the calls, and
    the tracker has not moved. *)
Theorem webhook_mode_submissions (interval : Q) (scheduler_options : SchedulerOptions)
    (raws : list RawUpdate) (b : Bot) :
  _closed b = true -> Handlers_bool (handlers b) = true ->
  let started := state_of (initialize true interval scheduler_options None b) in
  let o := for_each raws process_update' started in
  result_of o = inr tt
  /\ sched_jobs (state_of o) = map (dispatch_job' b) raws
  /\ trace_of o = map EvSpawn (map (dispatch_job' b) raws)
  /\ _update_id (state_of o) = _update_id b.
Proof.
  intros Hc Hh. cbn zeta.
  rewrite (initialize_truthy true interval scheduler_options b Hc Hh).
  cbn [state_of fst snd].
  rewrite (for_each_process_update_running raws
             (set_scheduler (Some {| jobs := [] |}) (set_closed false b))
             {| jobs := [] |} eq_refl eq_refl).
  repeat split.
Qed.

End Claims.

(** ** The lifecycle *)

(** C4: [initialize] on a closed bot without any registered handler fails
    with the configuration error, and the bot is left as it was, hence not
    running; no scheduler is created. *)
Theorem initialize_without_handlers (wh : bool) (interval : Q)
    (scheduler_options : SchedulerOptions) (answer : option exn) (b : Bot) :
  _closed b = true -> handlers b = [] ->
  initialize wh interval scheduler_options answer b = (inl ConfigurationError, b, [])
  /\ ~ Running (state_of (initialize wh interval scheduler_options answer b)).
Proof.
  intros Hc Hh.
  assert (He : initialize wh interval scheduler_options answer b
               = (inl ConfigurationError, b, [])).
  { unfold initialize, bind, get. rewrite Hc, Hh. reflexivity. }
  split; [exact He|]. rewrite He. unfold Running. cbn. congruence.
Qed.

(** C5: on a bot that runs, [initialize] returns normally and changes
    nothing: same scheduler, same handlers, same tracker, and neither a
    scheduler nor a poller is created. *)
Theorem initialize_while_running (wh : bool) (interval : Q)
    (scheduler_options : SchedulerOptions) (answer : option exn) (b : Bot) :
  Running b -> initialize wh interval scheduler_options answer b = (inr tt, b, []).
Proof.
  unfold Running. intros Hc. unfold initialize, bind, get. rewrite Hc. reflexivity.
Qed.

(** C6, what the code does: on a closed bot [close] changes nothing.  On a
    running bot it sets [_closed] and waits for the jobs that the scheduler
    yields.  When every wait returns, it closes the scheduler, drops it and
    puts the tracker back to 0 before it returns.  When a wait raises what
    its job raised, [close] raises the same: the later jobs are not waited
    for, the scheduler is neither closed nor dropped, the tracker keeps its
    value, and since [_closed] is set already, any further [close] returns
    at once and leaves all that as it is. *)
Theorem close_outcome (drain : Drain) (b : Bot) :
  bot_inv b ->
  let o := close drain b in
  if _closed b then o = (inr tt, b, [])
  else
    match first_failure drain with
    | None =>
        result_of o = inr tt
        /\ _closed (state_of o) = true
        /\ _update_id (state_of o) = 0
        /\ _scheduler (state_of o) = None
        /\ trace_of o = map EvWait (map fst drain) ++ [EvCloseScheduler]
    | Some (k, e) =>
        result_of o = inl e
        /\ _closed (state_of o) = true
        /\ _update_id (state_of o) = _update_id b
        /\ _scheduler (state_of o) = _scheduler b
        /\ trace_of o = map EvWait (map fst (take (S k) drain))
        /\ forall drain', close drain' (state_of o) = (inr tt, state_of o, [])
    end.
Proof.
  intros Hinv. cbn zeta. destruct (_closed b) eqn:Hc.
  - exact (close_closed drain b Hc).
  - destruct (Hinv Hc) as [s Hs].
    rewrite (close_running drain b s Hc Hs).
    destruct (first_failure drain) as [[k e]|]; cbn [result_of state_of trace_of fst snd].
    + repeat split; try exact Hs.
    + repeat split.
Qed.

(** ** Registration *)

Lemma add_handler_eq handler chat_type incoming content_type rule b :
  add_handler handler chat_type incoming content_type rule b
  = (inr RetNone,
     set_handlers (handlers b
                   ++ [ {| entry_chat_type := chat_type; entry_incoming := incoming;
                           entry_content_type := content_type; entry_rule := rule;
                           entry_callback := handler |} ]) b,
     []).
Proof. reflexivity. Qed.

(** C2, what the code does: the decorators of [command()] and of
    [trigger_message(...)] append the entry for [func], but they return the
    value of [add_handler], which is [None] and not [func]: after the
    decoration the decorated name is bound to [None]. *)
Theorem decorators_return_None (func : Callback) (b : Bot) :
  (result_of (command func b) = inr RetNone
   /\ handlers (state_of (command func b))
      = handlers b ++ [ {| entry_chat_type := None; entry_incoming := None;
                           entry_content_type := PyKind (OfContent COMMAND);
                           entry_rule := Some Command;
                           entry_callback := func |} ])
  /\ (forall message_type rule, truthy message_type = true ->
      result_of (decorate_trigger_message message_type rule func b) = inr RetNone
      /\ handlers (state_of (decorate_trigger_message message_type rule func b))
         = handlers b ++ [ {| entry_chat_type := None; entry_incoming := None;
                              entry_content_type := message_type;
                              entry_rule := rule;
                              entry_callback := func |} ])
  /\ RetNone <> RetFunc func.
Proof.
  split; [|split].
  - unfold command. rewrite add_handler_eq. split; reflexivity.
  - intros message_type rule Ht.
    unfold decorate_trigger_message, trigger_message, bind. rewrite Ht. cbn.
    split; reflexivity.
  - discriminate.
Qed.

(** C10: for every falsy [message_type], [None] included, [trigger_message]
    raises [BotError] at once: the call yields no decorator, and the bot,
    its handlers included, is as before. *)
Theorem trigger_message_falsy (message_type : pyval) (rule : option Rule) (b : Bot) :
  truthy message_type = false ->
  trigger_message message_type rule b
  = (inl (BotError "message_type Union[Chat, Incoming, Content] must be specifized"),
     b, []).
Proof. intros Ht. unfold trigger_message. rewrite Ht. reflexivity. Qed.

(** ** Further properties of the lifecycle *)

(** X14: Whatever the bot and whatever the waits do, after [close] has
    returned or raised, [_closed] is set (the flag is written before
    anything can fail), so a second [close] returns at once and changes
    nothing. *)
Theorem close_always_closes (drain drain' : Drain) (b : Bot) :
  _closed (state_of (close drain b)) = true
  /\ close drain' (state_of (close drain b)) = (inr tt, state_of (close drain b), []).
Proof.
  pose proof (close_closes drain b) as H.
  split; [exact H | apply close_closed, H].
Qed.

(** X15: Restart: when every wait of [close] returns and the new scheduler
    is created, [close] and then [initialize] on a running bot puts it back
    to work with a fresh scheduler, which holds the new poller alone, or
    nothing under a webhook; the tracker starts again from 0, while the
    handlers, the middlewares, the shared [ctx] and the client are kept. *)
Theorem restart (wh : bool) (interval : Q) (scheduler_options : SchedulerOptions)
    (drain : Drain) (b : Bot) :
  _closed b = false -> bot_inv b -> Handlers_bool (handlers b) = true ->
  first_failure drain = None ->
  let o := initialize wh interval scheduler_options None (state_of (close drain b)) in
  result_of o = inr tt
  /\ _closed (state_of o) = false
  /\ _update_id (state_of o) = 0
  /\ sched_jobs (state_of o) = (if wh then [] else [PollerJob interval])
  /\ handlers (state_of o) = handlers b
  /\ middlewares (state_of o) = middlewares b
  /\ ctx (state_of o) = ctx b
  /\ client (state_of o) = client b.
Proof.
  intros Hc Hinv Hh Hq. cbn zeta. destruct (Hinv Hc) as [s Hs].
  rewrite (close_running drain b s Hc Hs), Hq. cbn [state_of fst snd].
  rewrite initialize_truthy by first [reflexivity | exact Hh].
  destruct wh; repeat split.
Qed.

(** X16: Start and stop: [initialize] and then [close] on a closed bot that
    has handlers and no scheduler brings it back to the state it had, with
    the tracker at 0; on the way the scheduler is created, the poller is
    spawned unless the bot is fed by a webhook, and [close] waits for it
    (the poller leaves at its first test, so the wait returns) before it
    closes the scheduler. *)
Theorem initialize_then_close (wh : bool) (interval : Q)
    (scheduler_options : SchedulerOptions) (b : Bot) :
  _closed b = true -> _scheduler b = None -> Handlers_bool (handlers b) = true ->
  let started := initialize wh interval scheduler_options None b in
  let o := close (quiet_drain (sched_jobs (state_of started))) (state_of started) in
  result_of started = inr tt
  /\ result_of o = inr tt
  /\ state_of o = set_update_id 0 b
  /\ trace_of started ++ trace_of o
     = if wh then [EvCreateScheduler scheduler_options; EvCloseScheduler]
       else [EvCreateScheduler scheduler_options; EvSpawn (PollerJob interval);
             EvWait (PollerJob interval); EvCloseScheduler].
Proof.
  intros Hc Hs Hh. cbn zeta.
  rewrite (initialize_truthy wh interval scheduler_options b Hc Hh).
  cbn [result_of state_of trace_of fst snd].
  rewrite (close_running _ _ {| jobs := if wh then [] else [PollerJob interval] |})
    by reflexivity.
  rewrite first_failure_quiet, quiet_drain_jobs.
  cbn [result_of state_of trace_of fst snd].
  split; [reflexivity|]. split; [reflexivity|]. split.
  - destruct b as [? ? sch cl ? ? ? ?]; cbn in *. subst sch cl. reflexivity.
  - destruct wh; reflexivity.
Qed.

(** * The statements on concrete runs *)

Lemma running_bot_inv offset : bot_inv (running_bot offset).
Proof. intros _. eexists. reflexivity. Qed.

(** The running bot of the statements below is what the example reaches:
    a fresh [Bot], the decorated handler, [run], [initialize]. *)
Lemma running_bot_reachable :
  initialize false 0.1%Q [] None
    (run_assign "token" false
       (state_of (decorate_trigger_message (PyKind (OfContent TEXT))
                    (Some (Contains "hi")) "hi" Bot_init)))
  = (inr tt, running_bot 0, [EvCreateScheduler []; EvSpawn (PollerJob 0.1%Q)]).
Proof. reflexivity. Qed.

(** The bot of the example, tracker at 5, on the batch [5; 6] fetched at 5:
    the tracker ends at 7. *)
Lemma process_updates_offset_witness :
  well_ordered (reply_of [upd 5; upd 6]) = true
  /\ fetched_at (_update_id (running_bot 5)) (reply_of [upd 5; upd 6]) = true
  /\ result_of (_process_updates classify_as_text first_for_content
                  (reply_of [upd 5; upd 6]) (running_bot 5)) = inr tt
  /\ _update_id (state_of (_process_updates classify_as_text first_for_content
                             (reply_of [upd 5; upd 6]) (running_bot 5))) = 6 + 1.
Proof.
  split; [reflexivity|]. split; [reflexivity|]. split; [reflexivity|].
  exact (process_updates_offset classify_as_text first_for_content
           (reply_of [upd 5; upd 6]) (running_bot 5) eq_refl eq_refl eq_refl).
Defined.

(** C2 on the example: [@bot.command()] over [def start] on a fresh bot
    registers [start] and binds the name to [None]. *)
Lemma command_on_fresh_bot :
  result_of (command "start" Bot_init) = inr RetNone
  /\ map entry_callback (handlers (state_of (command "start" Bot_init))) = ["start"].
Proof. split; reflexivity. Qed.

Lemma process_update_not_running_witness :
  _closed Bot_init = true
  /\ process_update classify_as_text first_for_content (upd 1) Bot_init
     = (inl NotInitializedError, Bot_init, []).
Proof.
  split; [reflexivity|].
  apply (process_update_not_running classify_as_text first_for_content (upd 1) Bot_init).
  reflexivity.
Defined.

Lemma initialize_without_handlers_witness :
  _closed Bot_init = true /\ handlers Bot_init = []
  /\ initialize false 0.1%Q [] None Bot_init = (inl ConfigurationError, Bot_init, []).
Proof.
  split; [reflexivity|]. split; [reflexivity|].
  apply (initialize_without_handlers false 0.1%Q [] None Bot_init); reflexivity.
Defined.

Lemma initialize_while_running_witness :
  Running (running_bot 4)
  /\ initialize false 0.1%Q [] None (running_bot 4) = (inr tt, running_bot 4, []).
Proof.
  split; [reflexivity|].
  apply (initialize_while_running false 0.1%Q [] None (running_bot 4)). reflexivity.
Defined.

Lemma busy_bot_inv offset : bot_inv (busy_bot offset).
Proof. intros _. eexists. reflexivity. Qed.

(** The bot runs with the tracker at 2 and the handler of update 1 in
    flight; the handler raises while [close] waits for it.  [close] raises
    the same error: the bot is closed, but its scheduler is still there and
    the tracker is still 2. *)
Lemma close_outcome_witness :
  bot_inv (busy_bot 2)
  /\ result_of (close failing_drain (busy_bot 2))
     = inl (RuntimeError "handler failed")
  /\ _closed (state_of (close failing_drain (busy_bot 2))) = true
  /\ _update_id (state_of (close failing_drain (busy_bot 2))) = 2
  /\ _scheduler (state_of (close failing_drain (busy_bot 2)))
     = Some {| jobs := [PollerJob 0.1%Q; hi_job] |}
  /\ trace_of (close failing_drain (busy_bot 2))
     = [EvWait (PollerJob 0.1%Q); EvWait hi_job].
Proof.
  pose proof (busy_bot_inv 2) as Hinv.
  split; [exact Hinv|].
  pose proof (close_outcome failing_drain (busy_bot 2) Hinv) as H.
  simpl in H. destruct H as (Hr & Hc & Hu & Hs & Htr & _).
  repeat split; assumption.
Defined.

Lemma poll_once_api_error_witness :
  client (running_bot 4) = Some "token"
  /\ fetched (quiet_turn (inl (TelegramApiError 503))) = inl (TelegramApiError 503)
  /\ _update_id (state_of (poll_once classify_as_text first_for_content 0.1%Q
                             (quiet_turn (inl (TelegramApiError 503)))
                             (running_bot 4))) = 4
  /\ trace_of (poll_once classify_as_text first_for_content 0.1%Q
                 (quiet_turn (inl (TelegramApiError 503))) (running_bot 4))
     = [EvFetch 4; EvProcessError 503; EvSleep 30%Q].
Proof.
  split; [reflexivity|]. split; [reflexivity|].
  destruct (poll_once_api_error classify_as_text first_for_content 0.1%Q
              (quiet_turn (inl (TelegramApiError 503))) (running_bot 4)
              "token" 503 eq_refl eq_refl) as (_ & Hid & Htr).
  split; [exact Hid | exact Htr].
Defined.

(** Three quiet iterations (a 404, a timeout, one update) leave the loop
    alive. *)
Lemma poller_ends_only_closed_witness :
  bot_inv (running_bot 0)
  /\ client (running_bot 0) = Some "token"
  /\ result_of (_get_updates classify_as_text first_for_content 0.1%Q
                  [quiet_turn (inl (TelegramApiError 404));
                   quiet_turn (inl TimeoutError);
                   quiet_turn (inr (reply_of [upd 1]))]
                  (running_bot 0)) = inr StillPolling.
Proof.
  pose proof (running_bot_inv 0) as Hinv.
  split; [exact Hinv|]. split; [reflexivity|].
  destruct (poller_ends_only_closed classify_as_text first_for_content 0.1%Q
              [quiet_turn (inl (TelegramApiError 404));
               quiet_turn (inl TimeoutError);
               quiet_turn (inr (reply_of [upd 1]))]
              (running_bot 0) "token" Hinv eq_refl eq_refl) as (_ & _ & H & _).
  apply H; reflexivity.
Defined.

(** C8 as stated fails: a bot with a handler is started by [initialize]
    alone, so [self.client] is still [None].  The loop passes its [while]
    test, the fetch raises [AttributeError] inside the first iteration, no
    [except] clause names it, and the loop is left through it while the
    bot is still running. *)
Lemma poller_left_while_running :
  _get_updates classify_as_text first_for_content 0.1%Q
    [quiet_turn (inr (reply_of [upd 1]))] started_without_run
  = (inl (AttributeError "'NoneType' object has no attribute 'get_updates'"),
     started_without_run, [])
  /\ _closed started_without_run = false.
Proof. split; reflexivity. Qed.

(** The bot runs, the loop passes its [while] test and fetches; [close()]
    is called while the fetch is awaited; the fetch then brings one update,
    [process_update] raises, no [except] clause catches it, and the loop is
    left through that error. *)
Lemma poller_left_through_error :
  _closed (running_bot 0) = false
  /\ turn_listed (closing_turn (inr (reply_of [upd 1]))) = true
  /\ _get_updates classify_as_text first_for_content 0.1%Q
       [closing_turn (inr (reply_of [upd 1]))] (running_bot 0)
     = (inl (RuntimeError "The bot isn't initialized"),
        set_closed true (running_bot 0), [EvFetch 0]).
Proof. repeat split. Qed.

Lemma tracker_during_batch_witness :
  _closed (running_bot 0) = false
  /\ after_batch classify_as_text first_for_content (running_bot 0)
       {| jobs := [PollerJob 0.1%Q] |} [upd 5]
     ∈ process_updates_snapshots classify_as_text first_for_content
         [upd 5; upd 6] (running_bot 0)
  /\ exists n : nat,
       (n <= 2)%nat
       /\ (5 = max_update_id 0 (take n [upd 5; upd 6])
           \/ 5 = max_update_id 0 (take (n - 1) [upd 5; upd 6])
           \/ (n = 2%nat /\ 5 = max_update_id 0 [upd 5; upd 6] + 1)).
Proof.
  assert (Hin : after_batch classify_as_text first_for_content (running_bot 0)
                  {| jobs := [PollerJob 0.1%Q] |} [upd 5]
                ∈ process_updates_snapshots classify_as_text first_for_content
                    [upd 5; upd 6] (running_bot 0)).
  { apply list_elem_of_lookup_2 with (i := 1%nat). reflexivity. }
  split; [reflexivity|]. split; [exact Hin|].
  destruct (tracker_during_batch classify_as_text first_for_content
              [upd 5; upd 6] (running_bot 0) {| jobs := [PollerJob 0.1%Q] |} _
              eq_refl eq_refl Hin) as (n & Hn & _ & Hid).
  exists n. split; [exact Hn | exact Hid].
Defined.

(** C9 as stated fails: tracker at 0, batch [5; 6].  In the second snapshot
    the tracker is already 5, and the scheduler holds the job of update 5
    only: update 6 has not been submitted yet. *)
Lemma tracker_moves_inside_batch :
  exists st,
    process_updates_snapshots classify_as_text first_for_content
      [upd 5; upd 6] (running_bot 0) !! 1%nat = Some st
    /\ _update_id (running_bot 0) = 0
    /\ _update_id st = 5
    /\ sched_jobs st
       = sched_jobs (running_bot 0)
         ++ [dispatch_job classify_as_text first_for_content (running_bot 0) (upd 5)].
Proof. eexists. repeat split. Qed.

Lemma trigger_message_falsy_witness :
  truthy PyNone = false
  /\ trigger_message PyNone None Bot_init
     = (inl (BotError "message_type Union[Chat, Incoming, Content] must be specifized"),
        Bot_init, []).
Proof.
  split; [reflexivity|].
  apply (trigger_message_falsy PyNone None Bot_init). reflexivity.
Defined.

(** ** Further statements on concrete runs *)

Lemma process_updates_order_witness :
  _closed (running_bot 5) = false
  /\ sched_jobs (state_of (_process_updates classify_as_text first_for_content
                             (reply_of [upd 5; upd 6]) (running_bot 5)))
     = [PollerJob 0.1%Q;
        dispatch_job classify_as_text first_for_content (running_bot 5) (upd 5);
        dispatch_job classify_as_text first_for_content (running_bot 5) (upd 6)].
Proof.
  split; [reflexivity|].
  destruct (process_updates_order classify_as_text first_for_content
              (reply_of [upd 5; upd 6]) (running_bot 5)
              {| jobs := [PollerJob 0.1%Q] |} eq_refl eq_refl) as (_ & H & _).
  exact H.
Defined.

Lemma process_updates_closed_witness :
  _closed bot_with_command = true
  /\ _process_updates classify_as_text first_for_content
       (reply_of [upd 5; upd 6]) bot_with_command
     = (inl NotInitializedError, bot_with_command, []).
Proof.
  split; [reflexivity|].
  apply (process_updates_closed classify_as_text first_for_content
           (reply_of [upd 5; upd 6]) bot_with_command).
  reflexivity.
Defined.

Lemma process_updates_above_witness :
  upd 5 ∈ data_batch (reply_of [upd 5; upd 6])
  /\ update_id (upd 5)
     < _update_id (state_of (_process_updates classify_as_text first_for_content
                               (reply_of [upd 5; upd 6]) (running_bot 0))).
Proof.
  assert (Hin : upd 5 ∈ data_batch (reply_of [upd 5; upd 6]))
    by (apply list_elem_of_lookup_2 with (i := 0%nat); reflexivity).
  split; [exact Hin|].
  apply (process_updates_above classify_as_text first_for_content
           (reply_of [upd 5; upd 6]) (running_bot 0) (upd 5)); [reflexivity | exact Hin].
Defined.

Lemma poll_once_timeout_witness :
  client (running_bot 4) = Some "token"
  /\ trace_of (poll_once classify_as_text first_for_content 0.1%Q
                 (quiet_turn (inl TimeoutError)) (running_bot 4))
     = [EvFetch 4; EvLog TimeoutError].
Proof.
  split; [reflexivity|].
  destruct (poll_once_timeout classify_as_text first_for_content 0.1%Q
              (quiet_turn (inl TimeoutError)) (running_bot 4) "token"
              eq_refl eq_refl) as (_ & H & _).
  exact H.
Defined.

Lemma poll_once_client_error_witness :
  client (running_bot 4) = Some "token"
  /\ is_aiohttp_ClientError ClientError = true
  /\ trace_of (poll_once classify_as_text first_for_content 0.1%Q
                 (quiet_turn (inl ClientError)) (running_bot 4))
     = [EvFetch 4; EvLog ClientError; EvSleep 10%Q].
Proof.
  split; [reflexivity|]. split; [reflexivity|].
  destruct (poll_once_client_error classify_as_text first_for_content 0.1%Q
              (quiet_turn (inl ClientError)) (running_bot 4) "token" ClientError
              eq_refl eq_refl eq_refl) as (_ & H & _).
  exact H.
Defined.

Lemma poll_once_success_witness :
  _closed (running_bot 5) = false
  /\ _update_id (state_of (poll_once classify_as_text first_for_content 0.1%Q
                             (quiet_turn (inr (reply_of [upd 5; upd 6])))
                             (running_bot 5)))
     = 7.
Proof.
  split; [reflexivity|].
  destruct (poll_once_success classify_as_text first_for_content 0.1%Q
              (quiet_turn (inr (reply_of [upd 5; upd 6]))) (running_bot 5)
              {| jobs := [PollerJob 0.1%Q] |} "token" (reply_of [upd 5; upd 6])
              eq_refl eq_refl eq_refl eq_refl eq_refl) as (_ & _ & _ & H).
  exact H.
Defined.

Lemma poller_without_client_witness :
  _closed started_without_run = false
  /\ client started_without_run = None
  /\ result_of (_get_updates classify_as_text first_for_content 0.1%Q
                  [quiet_turn (inr (reply_of [upd 1]))] started_without_run)
     = inl (AttributeError "'NoneType' object has no attribute 'get_updates'").
Proof.
  split; [reflexivity|]. split; [reflexivity|].
  rewrite (poller_without_client classify_as_text first_for_content 0.1%Q
             (quiet_turn (inr (reply_of [upd 1]))) [] started_without_run
             eq_refl eq_refl).
  reflexivity.
Defined.

Lemma poller_uncaught_fetch_error_witness :
  fetch_error_listed (TypeError "not a JSON reply") = false
  /\ result_of (_get_updates classify_as_text first_for_content 0.1%Q
                  [quiet_turn (inl (TypeError "not a JSON reply"));
                   quiet_turn (inr (reply_of [upd 1]))] (running_bot 0))
     = inl (TypeError "not a JSON reply").
Proof.
  split; [reflexivity|].
  rewrite (poller_uncaught_fetch_error classify_as_text first_for_content 0.1%Q
             (quiet_turn (inl (TypeError "not a JSON reply")))
             [quiet_turn (inr (reply_of [upd 1]))] (running_bot 0) "token"
             (TypeError "not a JSON reply") eq_refl eq_refl eq_refl eq_refl).
  reflexivity.
Defined.

Lemma poller_stops_after_sleep_witness :
  bot_inv (running_bot 0)
  /\ (forall e, fetched (sleep_closing_turn (inr (reply_of [upd 1]))) = inl e ->
      is_asyncio_TimeoutError e = false)
  /\ result_of (_get_updates classify_as_text first_for_content 0.1%Q
                  [sleep_closing_turn (inr (reply_of [upd 1]));
                   quiet_turn (inr (reply_of [upd 2]))] (running_bot 0))
     = inr Stopped.
Proof.
  pose proof (running_bot_inv 0) as Hinv.
  assert (Hnt : forall e,
             fetched (sleep_closing_turn (inr (reply_of [upd 1]))) = inl e ->
             is_asyncio_TimeoutError e = false) by (intros e He; discriminate He).
  split; [exact Hinv|]. split; [exact Hnt|].
  destruct (poller_stops_after_sleep classify_as_text first_for_content 0.1%Q
              (sleep_closing_turn (inr (reply_of [upd 1])))
              [quiet_turn (inr (reply_of [upd 2]))] (running_bot 0) "token"
              eq_refl Hinv eq_refl eq_refl Hnt eq_refl eq_refl) as (H & _).
  exact H.
Defined.

Lemma webhook_mode_submissions_witness :
  _closed bot_with_command = true
  /\ Handlers_bool (handlers bot_with_command) = true
  /\ sched_jobs
       (state_of
          (for_each [upd 1; upd 2]
             (process_update classify_as_text first_for_content)
             (state_of (initialize true 0.1%Q [] None bot_with_command))))
     = [dispatch_job classify_as_text first_for_content bot_with_command (upd 1);
        dispatch_job classify_as_text first_for_content bot_with_command (upd 2)].
Proof.
  split; [reflexivity|]. split; [reflexivity|].
  destruct (webhook_mode_submissions classify_as_text first_for_content 0.1%Q []
              [upd 1; upd 2] bot_with_command eq_refl eq_refl) as (_ & H & _).
  exact H.
Defined.

Lemma scheduler_present_when_running_witness :
  forallb start_succeeds
    [OpCommand "start"; OpInitialize false 0.1%Q [] None;
     OpProcessUpdates (reply_of [upd 1]); OpClose failing_drain;
     OpInitialize false 0.1%Q [] None] = true
  /\ bot_inv
       (exec_all classify_as_text first_for_content
          [OpCommand "start"; OpInitialize false 0.1%Q [] None;
           OpProcessUpdates (reply_of [upd 1]); OpClose failing_drain;
           OpInitialize false 0.1%Q [] None] Bot_init).
Proof.
  split; [reflexivity|].
  destruct (scheduler_present_when_running classify_as_text first_for_content
              [OpCommand "start"; OpInitialize false 0.1%Q [] None;
               OpProcessUpdates (reply_of [upd 1]); OpClose failing_drain;
               OpInitialize false 0.1%Q [] None] (upd 2) [] eq_refl) as (H & _).
  exact H.
Defined.

Lemma restart_witness :
  _closed (running_bot 4) = false
  /\ bot_inv (running_bot 4)
  /\ Handlers_bool (handlers (running_bot 4)) = true
  /\ first_failure (quiet_drain [PollerJob 0.1%Q]) = None
  /\ _update_id
       (state_of (initialize false 0.1%Q [] None
                    (state_of (close (quiet_drain [PollerJob 0.1%Q]) (running_bot 4)))))
     = 0.
Proof.
  pose proof (running_bot_inv 4) as Hinv.
  split; [reflexivity|]. split; [exact Hinv|]. split; [reflexivity|].
  split; [reflexivity|].
  destruct (restart false 0.1%Q [] (quiet_drain [PollerJob 0.1%Q]) (running_bot 4)
              eq_refl Hinv eq_refl eq_refl) as (_ & _ & H & _).
  exact H.
Defined.

Lemma initialize_then_close_witness :
  _closed bot_with_command = true
  /\ _scheduler bot_with_command = None
  /\ Handlers_bool (handlers bot_with_command) = true
  /\ state_of (close (quiet_drain [PollerJob 0.1%Q])
                 (state_of (initialize false 0.1%Q [] None bot_with_command)))
     = set_update_id 0 bot_with_command.
Proof.
  split; [reflexivity|]. split; [reflexivity|]. split; [reflexivity|].
  destruct (initialize_then_close false 0.1%Q [] bot_with_command
              eq_refl eq_refl eq_refl) as (_ & _ & H & _).
  exact H.
Defined.

